(** * Desk assistant (teto.py): responder, avatar timers and text bubble

    A shallow embedding of [src/teto.py] and the properties of its
    specification.  Python strings are modelled as [string] (one [ascii]
    per character, ASCII repertoire); the operating system, the clock and
    the random generator are an explicit environment record; Qt timers are
    a millisecond clock with the list of pending deadlines. *)

From Stdlib Require Import Bool Arith List String Ascii ZArith Lia Sorted Permutation.
Import ListNotations.
Local Open Scope string_scope.

(** ** Python [str] operations used by the program *)
Module PyStr.

Definition code (c : ascii) : nat := nat_of_ascii c.

Definition between (lo hi n : nat) : bool := ((lo <=? n) && (n <=? hi))%nat.

(** [str.isspace] on the ASCII range: TAB..CR, FS..US and SPACE. *)
Definition is_space (c : ascii) : bool :=
  between 9 13 (code c) || between 28 32 (code c).

(** Line boundaries of [str.splitlines] on the ASCII range. *)
Definition is_linebreak (c : ascii) : bool :=
  between 10 13 (code c) || between 28 30 (code c).

Definition to_lower (c : ascii) : ascii :=
  if between 65 90 (code c) then ascii_of_nat (code c + 32) else c.

Definition to_upper (c : ascii) : ascii :=
  if between 97 122 (code c) then ascii_of_nat (code c - 32) else c.

Fixpoint map_chars (f : ascii -> ascii) (s : string) : string :=
  match s with
  | EmptyString => EmptyString
  | String c t => String (f c) (map_chars f t)
  end.

(** [s.lower()] *)
Definition lower (s : string) : string := map_chars to_lower s.

(** [s.capitalize()] *)
Definition capitalize (s : string) : string :=
  match s with
  | EmptyString => EmptyString
  | String c t => String (to_upper c) (lower t)
  end.

(** [s.startswith(p)] *)
Definition startswith (p s : string) : bool := String.prefix p s.

(** [kw in s] *)
Fixpoint contains (kw s : string) : bool :=
  startswith kw s ||
  match s with
  | EmptyString => false
  | String _ t => contains kw t
  end.

(** [s in [a, b, ...]] *)
Definition one_of (l : list string) (s : string) : bool :=
  existsb (String.eqb s) l.

(** [s.replace(old, new)] for a non-empty [old]: occurrences are found left
    to right and do not overlap; [skip] counts the characters of a match
    still to be dropped. *)
Fixpoint replace_from (old new : string) (skip : nat) (s : string) : string :=
  match s with
  | EmptyString => EmptyString
  | String c t =>
      match skip with
      | S k => replace_from old new k t
      | O =>
          if startswith old s
          then new ++ replace_from old new (String.length old - 1) t
          else String c (replace_from old new 0 t)
      end
  end.

Definition replace (old new s : string) : string := replace_from old new 0 s.

Fixpoint lstrip (s : string) : string :=
  match s with
  | EmptyString => EmptyString
  | String c t => if is_space c then lstrip t else s
  end.

(** The string without its trailing whitespace. *)
Fixpoint rstrip (s : string) : string :=
  match s with
  | EmptyString => EmptyString
  | String c t =>
      match rstrip t with
      | EmptyString => if is_space c then EmptyString else String c EmptyString
      | r => String c r
      end
  end.

(** [s.strip()] *)
Definition strip (s : string) : string := lstrip (rstrip s).

(** [s.split()]: the maximal runs of non-whitespace characters. *)
Fixpoint split_ws (s : string) : list string :=
  match s with
  | EmptyString => []
  | String c t =>
      if is_space c then split_ws t
      else
        match t with
        | EmptyString => [String c EmptyString]
        | String c' _ =>
            if is_space c' then String c EmptyString :: split_ws t
            else
              match split_ws t with
              | w :: ws => String c w :: ws
              | [] => [String c EmptyString]
              end
        end
  end.

(** [s.split(sep)] for a non-empty [sep]; the head of the result is the
    piece being read. *)
Fixpoint split_from (sep : string) (skip : nat) (s : string) : list string :=
  match s with
  | EmptyString => [EmptyString]
  | String c t =>
      match skip with
      | S k => split_from sep k t
      | O =>
          if startswith sep s
          then EmptyString :: split_from sep (String.length sep - 1) t
          else
            match split_from sep 0 t with
            | p :: ps => String c p :: ps
            | [] => [String c EmptyString]
            end
      end
  end.

Definition split (sep s : string) : list string := split_from sep 0 s.

(** [s.split(sep)[-1]] *)
Definition split_last (sep s : string) : string :=
  List.last (split sep s) EmptyString.

(** [s.split(":", 1)[1]]: what follows the first colon; [None] is the
    [IndexError] of a line without colon. *)
Fixpoint after_colon (s : string) : option string :=
  match s with
  | EmptyString => None
  | String c t => if Ascii.eqb c ":" then Some t else after_colon t
  end.

(** [s.splitlines()]; [skip_lf] is set right after a carriage return. *)
Fixpoint splitlines_from (skip_lf : bool) (s : string) : list string :=
  match s with
  | EmptyString => []
  | String c t =>
      if skip_lf && Ascii.eqb c "010" then splitlines_from false t
      else if is_linebreak c
      then EmptyString :: splitlines_from (Ascii.eqb c "013") t
      else
        match splitlines_from false t with
        | l :: ls => String c l :: ls
        | [] => [String c EmptyString]
        end
  end.

Definition splitlines (s : string) : list string := splitlines_from false s.

(** [s[:n]] *)
Fixpoint take (n : nat) (s : string) : string :=
  match n, s with
  | S k, String c t => String c (take k t)
  | _, _ => EmptyString
  end.

Definition digit_val (c : ascii) : option Z :=
  if between 48 57 (code c) then Some (Z.of_nat (code c - 48)) else None.

(** Decimal digits with single underscores between them. *)
Fixpoint int_digits (acc : Z) (after_digit : bool) (s : string) : option Z :=
  match s with
  | EmptyString => if after_digit then Some acc else None
  | String c t =>
      match digit_val c with
      | Some d => int_digits (10 * acc + d) true t
      | None =>
          if Ascii.eqb c "_" && after_digit
          then int_digits acc false t
          else None
      end
  end.

(** [int(s)]: [None] is [ValueError].  (The limit some interpreters put on
    the number of digits is not modelled.) *)
Definition int (s : string) : option Z :=
  match strip s with
  | String "+" t => int_digits 0 false t
  | String "-" t => option_map Z.opp (int_digits 0 false t)
  | t => int_digits 0 false t
  end.

(** [x or "unknown"]: [None] and the empty string are falsy. *)
Definition or_else (x : option string) (d : string) : string :=
  match x with
  | Some (String c t) => String c t
  | _ => d
  end.

Definition nl : string := String "010" EmptyString.

(** ["\n".join(l)] *)
Fixpoint join_lines (l : list string) : string :=
  match l with
  | [] => EmptyString
  | [x] => x
  | x :: r => x ++ nl ++ join_lines r
  end.

End PyStr.


(** ** The avatar: three sprites and the timers that bring it back to idle *)
Module Avatar.

Inductive sprite : Set := idle | mouth_open | blink.

(** [current] is the sprite painted; [now] the clock in milliseconds;
    [single_shots] the deadlines of the pending
    [QTimer.singleShot(ms, self.return_to_idle)] calls.  A single shot keeps
    no handle: it stays pending until it fires. *)
Record t : Set := mk {
  current : sprite;
  now : nat;
  single_shots : list nat
}.

Definition init : t := mk idle 0 [].

Definition singleShot (ms : nat) (a : t) : t :=
  mk (current a) (now a) (single_shots a ++ [now a + ms])%list.

Definition blink_once (a : t) : t :=
  singleShot 300 (mk blink (now a) (single_shots a)).

Definition return_to_idle (a : t) : t :=
  mk idle (now a) (single_shots a).

Definition talk (a : t) : t :=
  singleShot 700 (mk mouth_open (now a) (single_shots a)).

Definition due (n d : nat) : bool := (d <=? n)%nat.

(** One millisecond of the event loop: the single shots that are due fire
    (each runs [return_to_idle]) and leave the queue. *)
Definition tick (a : t) : t :=
  let n := S (now a) in
  let a' := mk (current a) n (filter (fun d => negb (due n d)) (single_shots a)) in
  if existsb (due n) (single_shots a) then return_to_idle a' else a'.

Definition elapse (ms : nat) (a : t) : t := Nat.iter ms tick a.

(** Every pending deadline lies in the future. *)
Definition pending_ahead (a : t) : Prop :=
  Forall (fun d => now a < d) (single_shots a).

End Avatar.

(** ** The text bubble: typewriter reveal and auto-hide *)
Module Bubble.

(** [label] is the text shown ([setText]); [timer] is [self.timer], when
    active its interval and next deadline; [hide_shots] are the deadlines of
    the pending [QTimer.singleShot(6000, ...)] calls that hide the bubble. *)
Record t : Set := mk {
  full_text : string;
  displayed_text : string;
  char_index : nat;
  label : string;
  visible : bool;
  timer : option (nat * nat);
  hide_shots : list nat;
  now : nat
}.

Definition init : t := mk "" "" 0 "" false None [] 0.

#[local] Set Warnings "-abstract-large-number".
Definition auto_hide_ms : nat := 6000.
#[local] Set Warnings "+abstract-large-number".

Definition show_animated_text (message : string) (interval : nat) (b : t) : t :=
  mk message "" 0 "" true (Some (interval, now b + interval)) (hide_shots b) (now b).

Definition _next_character (b : t) : t :=
  if (char_index b <? String.length (full_text b))%nat then
    let shown :=
      displayed_text b ++
      match String.get (char_index b) (full_text b) with
      | Some c => String c EmptyString
      | None => EmptyString
      end in
    mk (full_text b) shown (S (char_index b)) shown (visible b)
       (timer b) (hide_shots b) (now b)
  else
    mk (full_text b) (displayed_text b) (char_index b) (label b) (visible b)
       None (hide_shots b ++ [now b + auto_hide_ms])%list (now b).

Definition due (n d : nat) : bool := (d <=? n)%nat.

(** The hide single shots that are due fire: [setVisible(False)]. *)
Definition fire_hides (b : t) : t :=
  mk (full_text b) (displayed_text b) (char_index b) (label b)
     (if existsb (due (now b)) (hide_shots b) then false else visible b)
     (timer b)
     (filter (fun d => negb (due (now b) d)) (hide_shots b))
     (now b).

Definition rearm (n : nat) (b : t) : t :=
  mk (full_text b) (displayed_text b) (char_index b) (label b) (visible b)
     (match timer b with
      | Some (interval, _) => Some (interval, n + interval)
      | None => None
      end)
     (hide_shots b) (now b).

(** The reveal timer, when active and due, runs [_next_character] and is
    armed again unless the callback stopped it. *)
Definition fire_timer (b : t) : t :=
  match timer b with
  | Some (_, d) => if due (now b) d then rearm (now b) (_next_character b) else b
  | None => b
  end.

Definition advance (b : t) : t :=
  mk (full_text b) (displayed_text b) (char_index b) (label b) (visible b)
     (timer b) (hide_shots b) (S (now b)).

(** One millisecond of the event loop. *)
Definition tick (b : t) : t := fire_timer (fire_hides (advance b)).

Definition elapse (ms : nat) (b : t) : t := Nat.iter ms tick b.

(** What can happen to a bubble: a call of [show_animated_text], a timeout
    of the reveal timer, a millisecond going by. *)
Inductive event : Set :=
| Show (message : string) (interval : nat)
| Timeout
| Ms.

Definition step (b : t) (e : event) : t :=
  match e with
  | Show m i => show_animated_text m i b
  | Timeout => _next_character b
  | Ms => tick b
  end.

Definition run (es : list event) (b : t) : t := fold_left step es b.

(** The text shown is the prefix of the message read so far. *)
Definition revealed (b : t) : Prop :=
  char_index b <= String.length (full_text b) /\
  displayed_text b = PyStr.take (char_index b) (full_text b).

End Bubble.

(** ** The responder *)
Module Assistant.
Import PyStr.

(** An external call: its value, or the exception it raised (as [str(e)]). *)
Inductive ext (A : Type) : Type :=
| Ok (a : A)
| Fail (msg : string).
Arguments Ok {A} a.
Arguments Fail {A} msg.

(** [psutil.sensors_battery()]: the percentage (as [str] renders it) and
    whether the charger is plugged. *)
Record sbattery : Set := { percent : string; power_plugged : bool }.

(** What the program reads from outside.  Numbers that are only printed are
    carried as their [str] rendering; file times are ordered integers. *)
Record Env : Type := {
  now_text : string;  (* now().strftime("It's %H:%M on %A, %B %d, %Y.") *)
  sensors_battery : ext (option sbattery);
  cpu_percent : ext string;
  virtual_memory_percent : ext string;
  randbelow : nat -> nat;                  (* the random generator *)
  popen : string -> ext unit;              (* subprocess.Popen *)
  startfile : string -> ext unit;          (* os.startfile *)
  clipboard_text : string;                 (* QApplication.clipboard().text() *)
  documents_exists : bool;                 (* os.path.exists(target_dir) *)
  documents_walk : list (string * ext Z);  (* basename and getmtime, in os.walk order *)
  format_mtime : Z -> ext string;          (* fromtimestamp(m).strftime('%Y-%m-%d %H:%M') *)
  netsh_wlan : ext string;                 (* check_output(["netsh", ...]) *)
  set_mute : bool -> ext unit              (* toggle_mute *)
}.

Record Profile : Set := {
  name : option string;
  favorite_color : option string;
  birthday : option string
}.

(** The conversation state of [DesktopAssistant]. *)
Record State : Set := {
  game_active : bool;
  secret_number : option Z;
  rps_active : bool;
  user_profile : Profile
}.

Definition init : State :=
  {| game_active := false; secret_number := None; rps_active := false;
     user_profile := {| name := None; favorite_color := None; birthday := None |} |}.

(** What [respond] changes outside the conversation state, in the order it
    does it: a program launched with [Popen], a file started, the audio
    muted or unmuted, and the goodbye sequence on the window.  Calls that
    only read (psutil, the clipboard, the file times, the netsh query of the
    Wi-Fi branch) are the inputs of [Env] and are not recorded here. *)
Inductive effect : Set :=
| Launched (cmd : string)
| Started (path : string)
| Muted (mute : bool)
| AvatarTalk
| ShowBubble (message : string)
| QuitAfter (ms : nat).

Inductive outcome : Set :=
| Return (response : string)
| Raise (msg : string).

Record result : Set := {
  out : outcome;
  state : State;
  effects : list effect
}.

Definition ret (st : State) (s : string) : result :=
  {| out := Return s; state := st; effects := [] |}.

Definition ret_with (st : State) (s : string) (fx : list effect) : result :=
  {| out := Return s; state := st; effects := fx |}.

Definition raise (st : State) (msg : string) : result :=
  {| out := Raise msg; state := st; effects := [] |}.

(** A call outside any [try]: its exception leaves [respond]. *)
Definition call {A : Type} (c : ext A) (st : State) (k : A -> result) : result :=
  match c with
  | Ok a => k a
  | Fail msg => raise st msg
  end.

Notation "x <- c 'in' st ;; k" := (call c st (fun x => k))
  (at level 61, c at next level, st at next level, right associativity).

(** [random.choice(l)] *)
Definition choice (e : Env) (l : list string) : string :=
  nth (randbelow e (List.length l) mod List.length l) l "".

(** [random.randint(lo, lo + n - 1)] *)
Definition randint (e : Env) (lo : Z) (n : nat) : Z :=
  (lo + Z.of_nat (randbelow e n mod n))%Z.

Definition fun_facts : list string :=
  [ "Honey never spoils.";
    "Octopuses have three hearts.";
    "Bananas are berries, but strawberries aren't." ].

Definition fix_tips : list (string * string) :=
  [ ("slow", "Try restarting your PC and closing unused apps.");
    ("internet", "Check your router or try resetting your network adapter.");
    ("battery", "Try calibrating your battery or replace if it's old.");
    ("crash", "Update your drivers and check for overheating.");
    ("disk", "You can free up space by running 'cleanmgr' (Disk Cleanup) or deleting temp files using Win+R â†’ %temp%.") ].

Definition app_paths : list (string * string) :=
  [ ("chrome", "C:/Program Files (x86)/Google/Chrome/Application/chrome.exe");
    ("edge", "C:/Program Files/Internet Explorer/iexplore.exe") ].

Definition lookup (k : string) (d : list (string * string)) : option string :=
  option_map snd (find (fun kv => String.eqb k (fst kv)) d).

Definition plugged (b : sbattery) : string :=
  if power_plugged b then "charging" else "on battery".

(** *** The handlers, one per branch of [respond] *)

Definition say_time (e : Env) (st : State) (text : string) : result :=
  ret st (now_text e).

Definition say_battery (e : Env) (st : State) (text : string) : result :=
  batt <- sensors_battery e in st ;;
  match batt with
  | Some b => ret st ("Battery is at " ++ percent b ++ "% and " ++ plugged b ++ ".")
  | None => ret st "Battery info not available."
  end.

Definition say_health (e : Env) (st : State) (text : string) : result :=
  cpu <- cpu_percent e in st ;;
  mem <- virtual_memory_percent e in st ;;
  ret st ("CPU usage is " ++ cpu ++ "%. Memory usage is " ++ mem ++ "%.").

Definition say_fix (e : Env) (st : State) (text : string) : result :=
  match find (fun kv => contains (fst kv) text) fix_tips with
  | Some (_, tip) => ret st tip
  | None => ret st "Try restarting your computer or checking for updates."
  end.

Definition run_cleanup (e : Env) (st : State) (text : string) : result :=
  match popen e "cleanmgr" with
  | Ok _ => ret_with st "Launching Disk Cleanup..." [Launched "cleanmgr"]
  | Fail msg => ret st ("Failed to launch Disk Cleanup: " ++ msg)
  end.

Definition say_fact (e : Env) (st : State) (text : string) : result :=
  ret st (choice e fun_facts).

Definition say_summary (e : Env) (st : State) (text : string) : result :=
  batt <- sensors_battery e in st ;;
  let batt_info :=
    match batt with
    | Some b => "Battery at " ++ percent b ++ "%, " ++ plugged b ++ "."
    | None => "Battery info not available."
    end in
  cpu <- cpu_percent e in st ;;
  mem <- virtual_memory_percent e in st ;;
  let usage := "CPU: " ++ cpu ++ "%, Memory: " ++ mem ++ "%." in
  let fact := "Fun fact: " ++ choice e fun_facts in
  ret st (now_text e ++ nl ++ batt_info ++ nl ++ usage ++ nl ++ fact).

Definition launch_app (e : Env) (st : State) (app_name : string) : result :=
  let app_name := lower app_name in
  match lookup app_name app_paths with
  | Some path =>
      match startfile e path with
      | Ok _ => ret_with st ("Launching " ++ capitalize app_name ++ "...") [Started path]
      | Fail msg => ret st ("Couldn't launch " ++ app_name ++ ": " ++ msg)
      end
  | None => ret st ("I don't know how to open " ++ app_name ++ ".")
  end.

Definition open_app (e : Env) (st : State) (text : string) : result :=
  launch_app e st (strip (replace "open " "" text)).

Definition read_clipboard (e : Env) (st : State) (text : string) : result :=
  match clipboard_text e with
  | EmptyString => ret st "Clipboard is empty or not text."
  | t => ret st ("Clipboard says:" ++ nl ++ take 300 t)
  end.

Definition say_goodbye (e : Env) (st : State) (text : string) : result :=
  ret_with st "" [AvatarTalk; ShowBubble "Goodbye! Shutting down..."; QuitAfter 2000].

Definition start_guess (e : Env) (st : State) (text : string) : result :=
  ret {| game_active := true;
         secret_number := Some (randint e 1 10);
         rps_active := rps_active st;
         user_profile := user_profile st |}
      "I'm thinking of a number between 1 and 10. Try to guess it!".

Definition usage_hint : string := "Please type like: guess 5".

(** The body of the [try]; every exception ([IndexError], [ValueError],
    [TypeError] on a missing secret) ends in the bare [except]. *)
Definition take_guess (e : Env) (st : State) (text : string) : result :=
  match nth_error (split_ws text) 1 with
  | None => ret st usage_hint
  | Some tok =>
      match int tok, secret_number st with
      | Some guess, Some secret =>
          if (guess <? secret)%Z then ret st "Too low! Try again."
          else if (guess >? secret)%Z then ret st "Too high! Try again."
          else ret {| game_active := false;
                      secret_number := secret_number st;
                      rps_active := rps_active st;
                      user_profile := user_profile st |}
                   "Correct! You guessed it!"
      | _, _ => ret st usage_hint
      end
  end.

Definition start_rps (e : Env) (st : State) (text : string) : result :=
  ret {| game_active := game_active st;
         secret_number := secret_number st;
         rps_active := true;
         user_profile := user_profile st |}
      "Let's play Rock, Paper, Scissors! Type your move: rock, paper, or scissors.".

Definition moves : list string := ["rock"; "paper"; "scissors"].

Definition rps_result (user bot : string) : string :=
  if String.eqb user bot then "It's a tie!"
  else if (String.eqb user "rock" && String.eqb bot "scissors")
       || (String.eqb user "paper" && String.eqb bot "rock")
       || (String.eqb user "scissors" && String.eqb bot "paper")
  then "You win!"
  else "I win!".

Definition play_rps (e : Env) (st : State) (text : string) : result :=
  let user := text in
  let bot := choice e moves in
  ret {| game_active := game_active st;
         secret_number := secret_number st;
         rps_active := false;
         user_profile := user_profile st |}
      ("You chose " ++ user ++ ", I chose " ++ bot ++ ". " ++ rps_result user bot).

Definition with_profile (st : State) (p : Profile) : State :=
  {| game_active := game_active st;
     secret_number := secret_number st;
     rps_active := rps_active st;
     user_profile := p |}.

Definition set_name (e : Env) (st : State) (text : string) : result :=
  let n := capitalize (strip (replace "my name is " "" text)) in
  ret (with_profile st {| name := Some n;
                          favorite_color := favorite_color (user_profile st);
                          birthday := birthday (user_profile st) |})
      ("Nice to meet you, " ++ n ++ "!").

Definition set_color (e : Env) (st : State) (text : string) : result :=
  let c := strip (replace "my favorite color is " "" text) in
  ret (with_profile st {| name := name (user_profile st);
                          favorite_color := Some c;
                          birthday := birthday (user_profile st) |})
      ("I'll remember that your favorite color is " ++ c ++ ".").

Definition set_birthday (e : Env) (st : State) (text : string) : result :=
  let d := strip (split_last "my birthday is" text) in
  ret (with_profile st {| name := name (user_profile st);
                          favorite_color := favorite_color (user_profile st);
                          birthday := Some d |})
      ("Got it! Your birthday is on " ++ d ++ ".").

Definition recall (e : Env) (st : State) (text : string) : result :=
  let profile := user_profile st in
  ret st ("Your name is " ++ or_else (name profile) "unknown" ++ ", " ++
          "your favorite color is " ++ or_else (favorite_color profile) "unknown" ++ ", " ++
          "and your birthday is " ++ or_else (birthday profile) "unknown" ++ ".").

(** Insertion into a list sorted by decreasing time; among equal times the
    inserted file, which [os.walk] met first, stays first (the sort is stable). *)
Fixpoint insert_desc (x : string * Z) (l : list (string * Z)) : list (string * Z) :=
  match l with
  | [] => [x]
  | y :: r => if (snd x <? snd y)%Z then y :: insert_desc x r else x :: l
  end.

(** [recent_files.sort(key=lambda x: x[1], reverse=True)] *)
Definition sort_desc (l : list (string * Z)) : list (string * Z) :=
  fold_right insert_desc [] l.

(** The files whose [getmtime] did not raise ([except Exception: continue]). *)
Fixpoint with_mtime (l : list (string * ext Z)) : list (string * Z) :=
  match l with
  | [] => []
  | (f, Ok m) :: r => (f, m) :: with_mtime r
  | (_, Fail _) :: r => with_mtime r
  end.

Fixpoint format_files (e : Env) (l : list (string * Z)) : ext (list string) :=
  match l with
  | [] => Ok []
  | (f, m) :: r =>
      match format_mtime e m with
      | Fail msg => Fail msg
      | Ok d =>
          match format_files e r with
          | Fail msg => Fail msg
          | Ok ls => Ok ((f ++ " (" ++ d ++ ")") :: ls)
          end
      end
  end.

Definition recent_files (e : Env) (st : State) (text : string) : result :=
  if negb (documents_exists e) then ret st "I couldn't find the Documents folder."
  else
    match firstn 3 (sort_desc (with_mtime (documents_walk e))) with
    | [] => ret st "No recent files found."
    | top_files =>
        formatted <- format_files e top_files in st ;;
        ret st ("Here are your 3 most recent files in Documents:" ++ nl ++
                join_lines formatted)
    end.

(** The three fields read from the output of netsh. *)
Record wlan : Set := { ssid : option string; signal : option string; wstate : option string }.

(** One turn of the loop over the lines; [None] is the [IndexError] of a
    field line without colon. *)
Definition wifi_line (w : wlan) (line : string) : option wlan :=
  let line := strip line in
  if startswith "SSID" line then
    option_map (fun v => {| ssid := Some (strip v); signal := signal w; wstate := wstate w |})
               (after_colon line)
  else if startswith "Signal" line then
    option_map (fun v => {| ssid := ssid w; signal := Some (strip v); wstate := wstate w |})
               (after_colon line)
  else if startswith "State" line then
    option_map (fun v => {| ssid := ssid w; signal := signal w; wstate := Some (strip v) |})
               (after_colon line)
  else Some w.

Fixpoint wifi_lines (w : wlan) (lines : list string) : option wlan :=
  match lines with
  | [] => Some w
  | l :: r =>
      match wifi_line w l with
      | Some w' => wifi_lines w' r
      | None => None
      end
  end.

(** Truth value of an optional string: [None] and [""] are false. *)
Definition truthy (x : option string) : bool :=
  match x with
  | Some (String _ _) => true
  | _ => false
  end.

Definition wifi_sorry : string := "Sorry, I couldn't get the Wi-Fi information.".

Definition wifi_info (e : Env) (st : State) (text : string) : result :=
  match netsh_wlan e with
  | Fail _ => ret st wifi_sorry
  | Ok output =>
      match wifi_lines {| ssid := None; signal := None; wstate := None |}
                       (splitlines output) with
      | None => ret st wifi_sorry
      | Some w =>
          if truthy (ssid w) && truthy (signal w) && truthy (wstate w)
          then ret st ("Wi-Fi '" ++ or_else (ssid w) "" ++ "' is " ++ or_else (wstate w) "" ++
                       " with signal strength " ++ or_else (signal w) "" ++ ".")
          else ret st "Could not retrieve complete Wi-Fi information."
      end
  end.

Definition say_hello (e : Env) (st : State) (text : string) : result :=
  ret st "Hello.".

Definition mute_audio (e : Env) (st : State) (text : string) : result :=
  match set_mute e true with
  | Ok _ => ret_with st "Audio muted." [Muted true]
  | Fail _ => ret st "Sorry, I couldn't mute the audio."
  end.

Definition unmute_audio (e : Env) (st : State) (text : string) : result :=
  match set_mute e false with
  | Ok _ => ret_with st "Audio unmuted." [Muted false]
  | Fail _ => ret st "Sorry, I couldn't unmute the audio."
  end.

Definition fallback (e : Env) (st : State) (text : string) : result :=
  ret st "Sorry, I don't understand. Try asking something else.".

(** *** [DesktopAssistant.respond]: the chain of [if ...: return ...] *)
Definition respond (e : Env) (st : State) (text : string) : result :=
  if existsb (fun kw => contains kw text) ["time"; "date"] then say_time e st text
  else if contains "battery" text then say_battery e st text
  else if contains "health" text || contains "cpu" text || contains "memory" text
  then say_health e st text
  else if contains "fix" text || contains "slow" text || contains "problem" text
          || contains "crash" text || contains "disk" text
  then say_fix e st text
  else if contains "run cleanup" text || contains "open cleanup" text || contains "clean" text
  then run_cleanup e st text
  else if contains "fun fact" text || contains "fact" text then say_fact e st text
  else if existsb (fun kw => contains kw text) ["summary"; "status report"; "how am i doing"]
  then say_summary e st text
  else if startswith "open " text then open_app e st text
  else if contains "clipboard" text || contains "read clipboard" text
  then read_clipboard e st text
  else if one_of ["exit"; "quit"; "close"; "bye"] text then say_goodbye e st text
  else if contains "play guess" text || contains "guess number" text
  then start_guess e st text
  else if game_active st && startswith "guess" text then take_guess e st text
  else if contains "rock paper scissors" text || contains "play rps" text
  then start_rps e st text
  else if rps_active st && one_of ["rock"; "paper"; "scissors"] text
  then play_rps e st text
  else if startswith "my name is " text then set_name e st text
  else if startswith "my favorite color is " text then set_color e st text
  else if contains "my birthday is" text then set_birthday e st text
  else if contains "what do you know about me" text then recall e st text
  else if contains "recent files" text || contains "show recent" text
  then recent_files e st text
  else if contains "wifi info" text || contains "wifi status" text
          || contains "network info" text
  then wifi_info e st text
  else if one_of ["hi"; "hello"] text then say_hello e st text
  else if one_of ["mute audio"; "mute sound"] text then mute_audio e st text
  else if one_of ["unmute audio"; "unmute sound"] text then unmute_audio e st text
  else fallback e st text.

(** *** The rule table of the specification (section 4.3), in its order *)

Definition handler : Type := Env -> State -> string -> result.
Definition predicate : Type := State -> string -> bool.

Definition contains_any (kws : list string) : predicate :=
  fun _ text => existsb (fun kw => contains kw text) kws.
Definition starts_with (p : string) : predicate :=
  fun _ text => startswith p text.
Definition is_exactly (l : list string) : predicate :=
  fun _ text => one_of l text.
Definition while_guessing (p : predicate) : predicate :=
  fun st text => game_active st && p st text.
Definition while_rps (p : predicate) : predicate :=
  fun st text => rps_active st && p st text.
Definition otherwise : predicate := fun _ _ => true.

Definition rules : list (predicate * handler) :=
  [ (contains_any ["time"; "date"], say_time);                              (* 1 *)
    (contains_any ["battery"], say_battery);                                (* 2 *)
    (contains_any ["health"; "cpu"; "memory"], say_health);                 (* 3 *)
    (contains_any ["fix"; "slow"; "problem"; "crash"; "disk"], say_fix);    (* 4 *)
    (contains_any ["run cleanup"; "open cleanup"; "clean"], run_cleanup);   (* 5 *)
    (contains_any ["fun fact"; "fact"], say_fact);                          (* 6 *)
    (contains_any ["summary"; "status report"; "how am i doing"], say_summary); (* 7 *)
    (starts_with "open ", open_app);                                        (* 8 *)
    (contains_any ["clipboard"; "read clipboard"], read_clipboard);         (* 9 *)
    (is_exactly ["exit"; "quit"; "close"; "bye"], say_goodbye);             (* 10 *)
    (contains_any ["play guess"; "guess number"], start_guess);             (* 11 *)
    (while_guessing (starts_with "guess"), take_guess);                     (* 12 *)
    (contains_any ["rock paper scissors"; "play rps"], start_rps);          (* 13 *)
    (while_rps (is_exactly ["rock"; "paper"; "scissors"]), play_rps);       (* 14 *)
    (starts_with "my name is ", set_name);                                  (* 15 *)
    (starts_with "my favorite color is ", set_color);                       (* 16 *)
    (contains_any ["my birthday is"], set_birthday);                        (* 17 *)
    (contains_any ["what do you know about me"], recall);                   (* 18 *)
    (contains_any ["recent files"; "show recent"], recent_files);           (* 19 *)
    (contains_any ["wifi info"; "wifi status"; "network info"], wifi_info); (* 20 *)
    (is_exactly ["hi"; "hello"], say_hello);                                (* 21 *)
    (is_exactly ["mute audio"; "mute sound"], mute_audio);                  (* 22 *)
    (is_exactly ["unmute audio"; "unmute sound"], unmute_audio);            (* 23 *)
    (otherwise, fallback) ].                                                (* 24 *)

(** Rule [k] of the table, counted from 1 as the specification does. *)
Definition rule (k : nat) : option (predicate * handler) := nth_error rules (k - 1).

(** Rule [k] is the first rule whose predicate holds of the input. *)
Definition first_match (k : nat) (st : State) (text : string) : Prop :=
  1 <= k /\
  (exists p h, rule k = Some (p, h) /\ p st text = true) /\
  forall j q g, 1 <= j < k -> rule j = Some (q, g) -> q st text = false.

(** First-match-wins evaluation of a table. *)
Fixpoint dispatch (rs : list (predicate * handler)) : handler :=
  fun e st text =>
    match rs with
    | [] => fallback e st text
    | (p, h) :: rest => if p st text then h e st text else dispatch rest e st text
    end.

(** The rules that write the conversation state: the two game starts, a
    guess or a move in a running game, and the three profile phrases. *)
Definition mutating : list nat := [11; 12; 13; 14; 15; 16; 17].

(** The second whitespace-separated token of the input, read as an integer. *)
Definition guess_token (text : string) : option Z :=
  match nth_error (split_ws text) 1 with
  | Some tok => int tok
  | None => None
  end.

(** The usual table of the game: [beats a b] when move [a] wins over [b]. *)
Inductive beats : string -> string -> Prop :=
| rock_blunts_scissors : beats "rock" "scissors"
| paper_wraps_rock : beats "paper" "rock"
| scissors_cut_paper : beats "scissors" "paper".

(** The calls that [respond] makes outside any [try] on this input all
    succeed: the battery query when the battery branch answers; the CPU and
    memory queries when the health branch answers; the three of them when the
    summary branch answers; the formatting of the times of the files
    reported when the recent-files branch answers and Documents exists. *)
Definition calls_made_succeed (e : Env) (st : State) (text : string) : Prop :=
  (first_match 2 st text -> exists b, sensors_battery e = Ok b) /\
  (first_match 3 st text ->
     (exists c, cpu_percent e = Ok c) /\ (exists m, virtual_memory_percent e = Ok m)) /\
  (first_match 7 st text ->
     (exists b, sensors_battery e = Ok b) /\ (exists c, cpu_percent e = Ok c) /\
     (exists m, virtual_memory_percent e = Ok m)) /\
  (first_match 19 st text -> documents_exists e = true ->
     forall f t, In (f, t) (firstn 3 (sort_desc (with_mtime (documents_walk e)))) ->
                 exists d, format_mtime e t = Ok d).

(** The call ended in a [return], not in an exception. *)
Definition returns (r : result) : Prop := exists s, out r = Return s.

(** A machine on which every call succeeds: no battery, empty clipboard,
    one document, and a generator that always draws [pick]. *)
Definition calm (pick : nat) : Env :=
  {| now_text := "It's 09:30 on Monday, January 01, 2024.";
     sensors_battery := Ok None;
     cpu_percent := Ok "3.1";
     virtual_memory_percent := Ok "41.0";
     randbelow := fun _ => pick;
     popen := fun _ => Ok tt;
     startfile := fun _ => Ok tt;
     clipboard_text := "";
     documents_exists := true;
     documents_walk := [("notes.txt", Ok 1700000000%Z)];
     format_mtime := fun _ => Ok "2023-11-14 22:13";
     netsh_wlan := Ok "";
     set_mute := fun _ => Ok tt |}.

(** The same machine, but the battery query raises. *)
Definition battery_query_raises : Env :=
  {| now_text := now_text (calm 0);
     sensors_battery := Fail "battery sensor unavailable";
     cpu_percent := cpu_percent (calm 0);
     virtual_memory_percent := virtual_memory_percent (calm 0);
     randbelow := randbelow (calm 0);
     popen := popen (calm 0);
     startfile := startfile (calm 0);
     clipboard_text := clipboard_text (calm 0);
     documents_exists := documents_exists (calm 0);
     documents_walk := documents_walk (calm 0);
     format_mtime := format_mtime (calm 0);
     netsh_wlan := netsh_wlan (calm 0);
     set_mute := set_mute (calm 0) |}.

(** A running rock-paper-scissors game. *)
Definition playing_rps : State :=
  {| game_active := false; secret_number := None; rps_active := true;
     user_profile := user_profile init |}.

(** A running guess game whose secret is [secret]. *)
Definition guessing (secret : Z) : State :=
  {| game_active := true; secret_number := Some secret; rps_active := false;
     user_profile := user_profile init |}.

End Assistant.

(** ** Start-up: the check of the three sprite files *)
Module Startup.

Definition idle_img : string := "C:/Users/Dell/Documents/deskteto/tet00.png".
Definition mouth_open_img : string := "C:/Users/Dell/Documents/deskteto/tet01.png".
Definition blink_img : string := "C:/Users/Dell/Documents/deskteto/tet02.png".

(** How the process went: it left through [sys.exit(status)] during the
    checks, or reached the creation of the window. *)
Inductive ending : Set :=
| Exited (status : Z)
| WindowCreated.

Record run : Set := { printed : list string; ended : ending }.

(** The [for] loop over the paths; [exists_] is [os.path.exists]. *)
Fixpoint check_images (exists_ : string -> bool) (paths : list string) : run :=
  match paths with
  | [] => {| printed := []; ended := WindowCreated |}
  | img_path :: rest =>
      if negb (exists_ img_path)
      then {| printed := ["Missing image: " ++ img_path]; ended := Exited 1 |}
      else check_images exists_ rest
  end.

Definition main (exists_ : string -> bool) : run :=
  check_images exists_ [idle_img; mouth_open_img; blink_img].

Definition missing (exists_ : string -> bool) : list string :=
  filter (fun p => negb (exists_ p)) [idle_img; mouth_open_img; blink_img].

End Startup.
(** ** The avatar over time: calls, milliseconds and the blink timer *)
Module AvatarLoop.
Import Avatar.

(** What can happen to the avatar: a call of [talk], a call of [blink_once]
    (by the blink timer), a millisecond going by. *)
Inductive event : Set := Talk | Blink | Ms.

Definition step (a : t) (ev : event) : t :=
  match ev with
  | Talk => talk a
  | Blink => blink_once a
  | Ms => tick a
  end.

Definition run (es : list event) (a : t) : t := fold_left step es a.

(** [self.blink_timer.start(5000)] *)
Definition blink_interval_ms : nat := 5000.

(** The avatar right after the [k]-th timeout of the blink timer, when
    nothing else calls it: each period is 5000 ms of the event loop followed
    by the call of [blink_once]. *)
Definition after_blinks (k : nat) : t :=
  Nat.iter k (fun a => blink_once (elapse blink_interval_ms a)) init.

(** No deadline is further away than the longest single shot, and a sprite
    other than idle has a deadline pending. *)
Definition on_the_way_back (a : t) : Prop :=
  pending_ahead a /\
  Forall (fun d => d <= now a + 700) (single_shots a) /\
  (current a <> idle -> single_shots a <> []).

End AvatarLoop.

(** ** The window: input line, hourly summary, and the widgets together *)
Module Shell.
Import PyStr Assistant.

(** [DesktopAssistant] with its widgets.  [quit_shots] are the deadlines of
    the pending [QTimer.singleShot(2000, QApplication.quit)] calls, on the
    clock of the bubble; [outside] are the actions performed on the
    operating system. *)
Record Desktop : Set := {
  conv : State;
  avatar : Avatar.t;
  bubble : Bubble.t;
  input_line : string;
  quit_shots : list nat;
  outside : list effect
}.

(** The window at start-up, with [line] typed in the input line. *)
Definition fresh (line : string) : Desktop :=
  {| conv := init; avatar := Avatar.init; bubble := Bubble.init;
     input_line := line; quit_shots := []; outside := [] |}.

(** [self.show_bubble(message)]: the reveal with the default interval. *)
Definition show_bubble (message : string) (b : Bubble.t) : Bubble.t :=
  Bubble.show_animated_text message 30 b.

(** What an action of [respond] does to the window. *)
Definition perform (d : Desktop) (fx : effect) : Desktop :=
  match fx with
  | AvatarTalk =>
      {| conv := conv d; avatar := Avatar.talk (avatar d); bubble := bubble d;
         input_line := input_line d; quit_shots := quit_shots d; outside := outside d |}
  | ShowBubble message =>
      {| conv := conv d; avatar := avatar d; bubble := show_bubble message (bubble d);
         input_line := input_line d; quit_shots := quit_shots d; outside := outside d |}
  | QuitAfter ms =>
      {| conv := conv d; avatar := avatar d; bubble := bubble d;
         input_line := input_line d;
         quit_shots := (quit_shots d ++ [Bubble.now (bubble d) + ms])%list;
         outside := outside d |}
  | other =>
      {| conv := conv d; avatar := avatar d; bubble := bubble d;
         input_line := input_line d; quit_shots := quit_shots d;
         outside := (outside d ++ [other])%list |}
  end.

(** [handle_input]: the window afterwards, and the exception that left it,
    if any. *)
Definition handle_input (e : Env) (d : Desktop) : Desktop * option string :=
  let user_text := lower (strip (input_line d)) in
  match user_text with
  | EmptyString => (d, None)
  | _ =>
      let r := respond e (conv d) user_text in
      let d1 := fold_left perform (effects r)
                  {| conv := state r; avatar := avatar d; bubble := bubble d;
                     input_line := input_line d; quit_shots := quit_shots d;
                     outside := outside d |} in
      match out r with
      | Raise msg => (d1, Some msg)
      | Return response =>
          ({| conv := conv d1;
              avatar := Avatar.talk (avatar d1);
              bubble := show_bubble response (bubble d1);
              input_line := "";
              quit_shots := quit_shots d1;
              outside := outside d1 |}, None)
      end
  end.

(** The text built by [hourly_summary]. *)
Definition summary_text (e : Env) : ext string :=
  match sensors_battery e with
  | Fail msg => Fail msg
  | Ok batt =>
      let batt_info :=
        match batt with
        | Some b => "Battery at " ++ percent b ++ "%, " ++ plugged b ++ "."
        | None => "Battery info not available."
        end in
      match cpu_percent e with
      | Fail msg => Fail msg
      | Ok cpu =>
          match virtual_memory_percent e with
          | Fail msg => Fail msg
          | Ok mem =>
              let usage := "CPU: " ++ cpu ++ "%, Memory: " ++ mem ++ "%." in
              let fact := "Fun fact: " ++ choice e fun_facts in
              Ok (now_text e ++ nl ++ batt_info ++ nl ++ usage ++ nl ++ fact)
          end
      end
  end.

(** [hourly_summary], the slot of the summary timer. *)
Definition hourly_summary (e : Env) (d : Desktop) : Desktop * option string :=
  match summary_text e with
  | Fail msg => (d, Some msg)
  | Ok summary =>
      ({| conv := conv d;
          avatar := Avatar.talk (avatar d);
          bubble := show_bubble summary (bubble d);
          input_line := input_line d;
          quit_shots := quit_shots d;
          outside := outside d |}, None)
  end.

(** The conversation state after a series of calls of [respond], each with
    the machine as it was then. *)
Definition after (calls : list (Env * string)) (st : State) : State :=
  fold_left (fun s c => state (respond (fst c) s (snd c))) calls st.

(** A running guess game has a secret between 1 and 10. *)
Definition secret_in_range (st : State) : Prop :=
  game_active st = true ->
  exists s, secret_number st = Some s /\ (1 <= s <= 10)%Z.

Definition guess_inputs : list string :=
  ["guess 1"; "guess 2"; "guess 3"; "guess 4"; "guess 5";
   "guess 6"; "guess 7"; "guess 8"; "guess 9"; "guess 10"].

(** The tip of the fix table under a key. *)
Definition tip (key : string) : string := or_else (lookup key fix_tips) "".

(** The rule an action belongs to. *)
Definition effect_rule (fx : effect) : option nat :=
  match fx with
  | Launched cmd => if String.eqb cmd "cleanmgr" then Some 5 else None
  | Started path => if existsb (String.eqb path) (map snd app_paths) then Some 8 else None
  | AvatarTalk => Some 10
  | ShowBubble message =>
      if String.eqb message "Goodbye! Shutting down..." then Some 10 else None
  | QuitAfter ms => if Nat.eqb ms 2000 then Some 10 else None
  | Muted true => Some 22
  | Muted false => Some 23
  end.

(** A line of the netsh output that the loop reads a field from. *)
Definition field_line (line : string) : bool :=
  startswith "SSID" (strip line) || startswith "Signal" (strip line)
  || startswith "State" (strip line).

(** The actions that touch the operating system, not the window. *)
Definition external (fx : effect) : Prop :=
  match fx with
  | Launched _ | Started _ | Muted _ => True
  | _ => False
  end.

(** [later x y]: file [x] is at least as recent as file [y]. *)
Definition later (x y : string * Z) : Prop := (snd y <= snd x)%Z.

(** The calm machine, with [output] as the answer of netsh. *)
Definition netsh_says (output : string) : Env :=
  {| now_text := now_text (calm 0);
     sensors_battery := sensors_battery (calm 0);
     cpu_percent := cpu_percent (calm 0);
     virtual_memory_percent := virtual_memory_percent (calm 0);
     randbelow := randbelow (calm 0);
     popen := popen (calm 0);
     startfile := startfile (calm 0);
     clipboard_text := clipboard_text (calm 0);
     documents_exists := documents_exists (calm 0);
     documents_walk := documents_walk (calm 0);
     format_mtime := format_mtime (calm 0);
     netsh_wlan := Ok output;
     set_mute := set_mute (calm 0) |}.

(** The characters of a string are all whitespace. *)
Fixpoint blank (s : string) : bool :=
  match s with
  | EmptyString => true
  | String c t => is_space c && blank t
  end.

End Shell.

Example pystr_example_1 : PyStr.contains "time" "what time is it" = true. Proof. reflexivity. Qed.
Example pystr_example_2 : PyStr.replace "open " "" "open open chrome" = "chrome". Proof. reflexivity. Qed.
Example pystr_example_3 : PyStr.strip "  a b  " = "a b". Proof. reflexivity. Qed.
Example pystr_example_4 : PyStr.split_ws "  guess   12 x " = ["guess"; "12"; "x"]. Proof. reflexivity. Qed.
Example pystr_example_5 : PyStr.int "1_0" = Some 10%Z /\ PyStr.int "-7" = Some (-7)%Z /\ PyStr.int "1__0" = None /\ PyStr.int "" = None /\ PyStr.int "+" = None /\ PyStr.int "5x" = None. Proof. repeat split; reflexivity. Qed.
Example pystr_example_6 : PyStr.split "ab" "xabyabz" = ["x"; "y"; "z"] /\ PyStr.split "ab" "ab" = [""; ""]. Proof. split; reflexivity. Qed.
Example pystr_example_7 : PyStr.capitalize "aLICE b" = "Alice b". Proof. reflexivity. Qed.
Example pystr_example_8 : PyStr.splitlines ("a" ++ String "013" (String "010" "b") ++ PyStr.nl) = ["a"; "b"]. Proof. reflexivity. Qed.
Example pystr_example_9 : PyStr.splitlines (PyStr.nl ++ PyStr.nl ++ "b") = [""; ""; "b"]. Proof. reflexivity. Qed.

(** * Properties *)

#[local] Set Warnings "-abstract-large-number".

(** ** Dispatch: the chain of [if]s against the rule table *)
Section Dispatch.
Import Assistant.
Variables (e : Env) (st : State) (text : string).

Lemma respond_is_dispatch : respond e st text = dispatch rules e st text.
Proof.
  cbv [respond dispatch rules contains_any starts_with is_exactly
       while_guessing while_rps otherwise existsb].
  rewrite ?orb_false_r, ?orb_assoc.
  reflexivity.
Qed.

Lemma dispatch_first_match (rs : list (predicate * handler)) :
  forall k p h,
    nth_error rs k = Some (p, h) ->
    p st text = true ->
    (forall j q g, j < k -> nth_error rs j = Some (q, g) -> q st text = false) ->
    dispatch rs e st text = h e st text.
Proof.
  induction rs as [|[q0 h0] rest IH]; intros k p h Hk Hp Hearlier.
  - destruct k; discriminate.
  - destruct k as [|k]; simpl in Hk |- *.
    + injection Hk as -> ->. now rewrite Hp.
    + rewrite (Hearlier 0 q0 h0) by (simpl; auto with arith).
      apply (IH k p h Hk Hp).
      intros j q g Hj Hq. apply (Hearlier (S j) q g); [lia | exact Hq].
Qed.

Lemma respond_rule (k : nat) (p : predicate) (h : handler) :
  rule k = Some (p, h) ->
  first_match k st text ->
  respond e st text = h e st text.
Proof.
  intros Hk (Hpos & (p' & h' & Hk' & Hp) & Hearlier).
  rewrite Hk in Hk'. injection Hk' as <- <-.
  rewrite respond_is_dispatch.
  apply (dispatch_first_match rules (k - 1) p h Hk Hp).
  intros j q g Hj Hq.
  apply (Hearlier (S j) q g); [lia|].
  unfold rule. now replace (S j - 1) with j by lia.
Qed.

End Dispatch.

(** ** Tactics for inputs given in full *)

Ltac eval_pred :=
  cbv [Assistant.contains_any Assistant.starts_with Assistant.is_exactly
       Assistant.while_guessing Assistant.while_rps Assistant.otherwise];
  vm_compute;
  repeat match goal with
         | |- context [match ?x with _ => _ end] => destruct x
         end;
  reflexivity.

Tactic Notation "earlier_rules" int_or_var(n) :=
  let j := fresh "j" in
  let Hj := fresh "Hj" in
  let Hr := fresh "Hr" in
  intros j ? ? Hj Hr;
  do n (destruct j as [|j];
        [ try (exfalso; lia);
          cbv [Assistant.rule Assistant.rules nth_error Nat.sub] in Hr;
          injection Hr as <- <-; eval_pred | ]);
  exfalso; lia.

Tactic Notation "first_match_by_eval" int_or_var(n) :=
  split; [lia | split;
    [ eexists; eexists; split; [reflexivity | eval_pred]
    | earlier_rules n ] ].

Section Precedence.
Import PyStr Assistant.




End Precedence.

(** ** Which handlers write the conversation state, and which can raise *)
Section Handlers.
Import PyStr Assistant.
Variables (e : Env) (st : State) (text : string).

Ltac handler_cases :=
  repeat match goal with
         | |- context [match ?x with _ => _ end] => destruct x
         end;
  try reflexivity.

Lemma say_time_state : state (say_time e st text) = st.
Proof. reflexivity. Qed.
Lemma say_battery_state : state (say_battery e st text) = st.
Proof. unfold say_battery, call. handler_cases. Qed.
Lemma say_health_state : state (say_health e st text) = st.
Proof. unfold say_health, call. handler_cases. Qed.
Lemma say_fix_state : state (say_fix e st text) = st.
Proof. unfold say_fix. handler_cases. Qed.
Lemma run_cleanup_state : state (run_cleanup e st text) = st.
Proof. unfold run_cleanup. handler_cases. Qed.
Lemma say_fact_state : state (say_fact e st text) = st.
Proof. reflexivity. Qed.
Lemma say_summary_state : state (say_summary e st text) = st.
Proof. unfold say_summary, call. handler_cases. Qed.
Lemma launch_app_state (app : string) : state (launch_app e st app) = st.
Proof. unfold launch_app. handler_cases. Qed.
Lemma open_app_state : state (open_app e st text) = st.
Proof. apply launch_app_state. Qed.
Lemma read_clipboard_state : state (read_clipboard e st text) = st.
Proof. unfold read_clipboard. handler_cases. Qed.
Lemma say_goodbye_state : state (say_goodbye e st text) = st.
Proof. reflexivity. Qed.
Lemma recall_state : state (recall e st text) = st.
Proof. reflexivity. Qed.
Lemma recent_files_state : state (recent_files e st text) = st.
Proof. unfold recent_files, call. handler_cases. Qed.
Lemma wifi_info_state : state (wifi_info e st text) = st.
Proof. unfold wifi_info. handler_cases. Qed.
Lemma say_hello_state : state (say_hello e st text) = st.
Proof. reflexivity. Qed.
Lemma mute_audio_state : state (mute_audio e st text) = st.
Proof. unfold mute_audio. handler_cases. Qed.
Lemma unmute_audio_state : state (unmute_audio e st text) = st.
Proof. unfold unmute_audio. handler_cases. Qed.
Lemma fallback_state : state (fallback e st text) = st.
Proof. reflexivity. Qed.

Lemma dispatch_keeps_state (rs : list (predicate * handler)) :
  Forall (fun r => fst r st text = false \/ state (snd r e st text) = st) rs ->
  state (dispatch rs e st text) = st.
Proof.
  induction 1 as [|[p h] rest [Hp|Hh] _ IH]; simpl in *.
  - reflexivity.
  - now rewrite Hp.
  - destruct (p st text); [exact Hh | exact IH].
Qed.

End Handlers.

Create HintDb keeps_state.
#[local] Hint Resolve say_time_state say_battery_state say_health_state say_fix_state
  run_cleanup_state say_fact_state say_summary_state open_app_state
  read_clipboard_state say_goodbye_state recall_state recent_files_state
  wifi_info_state say_hello_state mute_audio_state unmute_audio_state
  fallback_state : keeps_state.

Section Conversation.
Import PyStr Assistant.

(** C10. An input on which none of the state-writing rules holds (the two
    game starts, a guess or a move in a running game, the three profile
    phrases) leaves the whole conversation state as it was, whichever rule
    answers it, the fallback included. *)
Theorem respond_frame (e : Env) (st : State) (text : string) :
  (forall k p h, In k mutating -> rule k = Some (p, h) -> p st text = false) ->
  state (respond e st text) = st /\
  ((forall j q g, 1 <= j < 24 -> rule j = Some (q, g) -> q st text = false) ->
   respond e st text = ret st "Sorry, I don't understand. Try asking something else.").
Proof.
  intros Hquiet.
  assert (Hst : state (respond e st text) = st).
  { rewrite respond_is_dispatch. apply dispatch_keeps_state. unfold rules.
    repeat (apply Forall_cons;
            [ cbn [fst snd];
              first [ right; solve [auto with keeps_state]
                    | left;
                      first [ apply (Hquiet 11 _ _ ltac:(simpl; tauto) eq_refl)
                            | apply (Hquiet 12 _ _ ltac:(simpl; tauto) eq_refl)
                            | apply (Hquiet 13 _ _ ltac:(simpl; tauto) eq_refl)
                            | apply (Hquiet 14 _ _ ltac:(simpl; tauto) eq_refl)
                            | apply (Hquiet 15 _ _ ltac:(simpl; tauto) eq_refl)
                            | apply (Hquiet 16 _ _ ltac:(simpl; tauto) eq_refl)
                            | apply (Hquiet 17 _ _ ltac:(simpl; tauto) eq_refl) ] ]
            | ]).
    apply Forall_nil. }
  split; [exact Hst | intros Hnone].
  apply (respond_rule e st text 24 otherwise fallback eq_refl).
  split; [lia | split; [| exact Hnone]].
  exists otherwise, fallback. now split.
Qed.

Lemma respond_frame_witness :
  state (respond (calm 0) (guessing 7) "tell me a story") = guessing 7.
Proof.
  refine (proj1 (respond_frame (calm 0) (guessing 7) "tell me a story" _)).
  intros k p h Hk Hr. simpl in Hk.
  repeat (destruct Hk as [<-|Hk];
          [ cbv [rule rules nth_error Nat.sub] in Hr; injection Hr as <- <-;
            vm_compute; reflexivity | ]).
  destruct Hk.
Defined.

Lemma first_true (st : State) (text : string) (rs : list (predicate * handler)) :
  (exists k p h, nth_error rs k = Some (p, h) /\ p st text = true) ->
  exists k p h,
    nth_error rs k = Some (p, h) /\ p st text = true /\
    forall j q g, j < k -> nth_error rs j = Some (q, g) -> q st text = false.
Proof.
  induction rs as [|[q0 h0] rest IH]; intros (k & p & h & Hk & Hp).
  - destruct k; discriminate.
  - destruct (q0 st text) eqn:Hq0.
    + exists 0, q0, h0. repeat split; [exact Hq0 | intros j q g Hj; lia].
    + destruct k as [|k]; [cbn in Hk; injection Hk as <- <-; congruence|].
      destruct IH as (k' & p' & h' & Hk' & Hp' & Hearlier);
        [now exists k, p, h|].
      exists (S k'), p', h'. repeat split; [exact Hk' | exact Hp' |].
      intros [|j] q g Hj Hq; cbn in Hq.
      * now injection Hq as <- <-.
      * apply (Hearlier j q g); [lia | exact Hq].
Qed.

(** Some rule is always the first to match: the last one matches everything. *)
Lemma first_match_exists (st : State) (text : string) :
  exists k, first_match k st text.
Proof.
  destruct (first_true st text rules) as (k & p & h & Hk & Hp & Hearlier).
  { exists 23, otherwise, fallback. now split. }
  exists (S k). split; [lia | split].
  - exists p, h. split; [| exact Hp]. unfold rule. now replace (S k - 1) with k by lia.
  - intros j q g Hj Hq. apply (Hearlier (j - 1) q g); [lia | exact Hq].
Qed.

Lemma format_files_ok_iff (e : Env) (l : list (string * Z)) :
  (exists ls, format_files e l = Ok ls) <->
  (forall f t, In (f, t) l -> exists d, format_mtime e t = Ok d).
Proof.
  induction l as [|[f t] r IH]; cbn.
  - split; [intros _ ? ? [] | now eexists].
  - split.
    + intros (ls & Hls) f' t' [[= <- <-]|Hin].
      * destruct (format_mtime e t); [now eexists | discriminate].
      * refine (proj1 IH _ f' t' Hin).
        destruct (format_mtime e t); [|discriminate].
        destruct (format_files e r); [now eexists | discriminate].
    + intros H. destruct (H f t (or_introl eq_refl)) as (d & ->).
      destruct (proj2 IH) as (ls & ->); [| now eexists].
      intros f' t' Hin. apply (H f' t'). now right.
Qed.

Lemma say_battery_returns_iff (e : Env) (st : State) (text : string) :
  returns (say_battery e st text) <-> exists b, sensors_battery e = Ok b.
Proof.
  unfold returns, say_battery, call. destruct (sensors_battery e) as [[b|]|msg]; cbn;
    split; try (intros _; eexists; reflexivity); intros (x & Hx); discriminate.
Qed.

Lemma say_health_returns_iff (e : Env) (st : State) (text : string) :
  returns (say_health e st text) <->
  (exists c, cpu_percent e = Ok c) /\ (exists m, virtual_memory_percent e = Ok m).
Proof.
  unfold returns, say_health, call.
  destruct (cpu_percent e) as [c|msg]; cbn.
  - destruct (virtual_memory_percent e) as [m|msg]; cbn.
    + split; [intros _; split; eexists; reflexivity | intros _; eexists; reflexivity].
    + split; [intros (x & Hx); discriminate | intros (_ & x & Hx); discriminate].
  - split; [intros (x & Hx); discriminate | intros ((x & Hx) & _); discriminate].
Qed.

Lemma say_summary_returns_iff (e : Env) (st : State) (text : string) :
  returns (say_summary e st text) <->
  (exists b, sensors_battery e = Ok b) /\ (exists c, cpu_percent e = Ok c) /\
  (exists m, virtual_memory_percent e = Ok m).
Proof.
  unfold returns, say_summary, call.
  destruct (sensors_battery e) as [b|msg]; cbn.
  - destruct (cpu_percent e) as [c|msg]; cbn.
    + destruct (virtual_memory_percent e) as [m|msg]; cbn.
      * split; [intros _; repeat split; eexists; reflexivity | intros _; eexists; reflexivity].
      * split; [intros (x & Hx); discriminate | intros (_ & _ & x & Hx); discriminate].
    + split; [intros (x & Hx); discriminate | intros (_ & (x & Hx) & _); discriminate].
  - split; [intros (x & Hx); discriminate | intros ((x & Hx) & _); discriminate].
Qed.

Lemma recent_files_returns_iff (e : Env) (st : State) (text : string) :
  returns (recent_files e st text) <->
  (documents_exists e = true ->
   forall f t, In (f, t) (firstn 3 (sort_desc (with_mtime (documents_walk e)))) ->
               exists d, format_mtime e t = Ok d).
Proof.
  unfold returns, recent_files, call.
  destruct (documents_exists e); cbn [negb].
  - destruct (firstn 3 (sort_desc (with_mtime (documents_walk e)))) as [|x top] eqn:Htop.
    + split; [intros _ _ ? ? [] | intros _; eexists; reflexivity].
    + rewrite <- (format_files_ok_iff e (x :: top)).
      destruct (format_files e (x :: top)) as [ls|msg]; cbn.
      * split; [intros _ _; eexists; reflexivity | intros _; eexists; reflexivity].
      * split; [intros (y & Hy); discriminate | intros H; destruct (H eq_refl); discriminate].
  - split; [intros _ H; discriminate H | intros _; eexists; reflexivity].
Qed.

(** The handlers of the other rules return whatever the machine does. *)
Lemma respond_returns_iff (e : Env) (st : State) (text : string) :
  calls_made_succeed e st text <-> returns (respond e st text).
Proof.
  split.
  - intros (H2 & H3 & H7 & H19).
    destruct (first_match_exists st text) as (k & Hfm).
    pose proof Hfm as (Hpos & (p & h & Hk & _) & _).
    rewrite (respond_rule e st text k p h Hk Hfm).
    do 25 (destruct k as [|k];
           [ try (exfalso; lia);
             cbv [rule rules nth_error Nat.sub] in Hk; try discriminate Hk;
             injection Hk as <- <-;
             first [ apply say_battery_returns_iff; exact (H2 Hfm)
                   | apply say_health_returns_iff; exact (H3 Hfm)
                   | apply say_summary_returns_iff; exact (H7 Hfm)
                   | apply recent_files_returns_iff; exact (H19 Hfm)
                   | unfold returns, say_time, say_fix, run_cleanup, say_fact, open_app,
                       launch_app, read_clipboard, say_goodbye, start_guess, take_guess,
                       start_rps, play_rps, set_name, set_color, set_birthday, recall,
                       wifi_info, say_hello, mute_audio, unmute_audio, fallback;
                     repeat match goal with
                            | |- context [match ?x with _ => _ end] => destruct x
                            end;
                     eexists; reflexivity ]
           | ]).
    cbv [rule] in Hk. destruct k; cbn in Hk; discriminate Hk.
  - intros Hret. split; [| split; [| split]].
    + intros Hfm. rewrite (respond_rule e st text 2 _ _ eq_refl Hfm) in Hret.
      now apply say_battery_returns_iff in Hret.
    + intros Hfm. rewrite (respond_rule e st text 3 _ _ eq_refl Hfm) in Hret.
      now apply say_health_returns_iff in Hret.
    + intros Hfm. rewrite (respond_rule e st text 7 _ _ eq_refl Hfm) in Hret.
      now apply say_summary_returns_iff in Hret.
    + intros Hfm Hex. rewrite (respond_rule e st text 19 _ _ eq_refl Hfm) in Hret.
      exact (proj1 (recent_files_returns_iff e st text) Hret Hex).
Qed.

(** C4, as the program has it.  The battery, CPU and memory queries and the
    formatting of file times are called outside any [try]: [respond] returns
    a string exactly when the calls of this kind that it makes on the input
    succeed, whatever the other calls do.  The calls made inside a [try]
    (cleanup launch, application launch, the time of a file, Wi-Fi query,
    mute and unmute) turn their exception into a fixed message or skip the
    file; an absent battery and an empty clipboard have a message of their
    own. *)
Theorem respond_returns_when_unguarded_calls_succeed :
  (forall e st text, calls_made_succeed e st text <-> returns (respond e st text)) /\
  (forall e st text msg, popen e "cleanmgr" = Fail msg ->
     run_cleanup e st text = ret st ("Failed to launch Disk Cleanup: " ++ msg)) /\
  (forall e st app path msg,
     lookup (lower app) app_paths = Some path -> startfile e path = Fail msg ->
     launch_app e st app = ret st ("Couldn't launch " ++ lower app ++ ": " ++ msg)) /\
  (forall e st text msg, netsh_wlan e = Fail msg ->
     wifi_info e st text = ret st "Sorry, I couldn't get the Wi-Fi information.") /\
  (forall e st text msg, set_mute e true = Fail msg ->
     mute_audio e st text = ret st "Sorry, I couldn't mute the audio.") /\
  (forall e st text msg, set_mute e false = Fail msg ->
     unmute_audio e st text = ret st "Sorry, I couldn't unmute the audio.") /\
  (forall f msg rest, with_mtime ((f, Fail msg) :: rest) = with_mtime rest) /\
  (forall e st text, sensors_battery e = Ok None ->
     say_battery e st text = ret st "Battery info not available.") /\
  (forall e st text, clipboard_text e = "" ->
     read_clipboard e st text = ret st "Clipboard is empty or not text.").
Proof.
  split; [exact respond_returns_iff|]. repeat split.
  - intros e st text msg H. unfold run_cleanup. now rewrite H.
  - intros e st app path msg Hp H. unfold launch_app. now rewrite Hp, H.
  - intros e st text msg H. unfold wifi_info. now rewrite H.
  - intros e st text msg H. unfold mute_audio. now rewrite H.
  - intros e st text msg H. unfold unmute_audio. now rewrite H.
  - intros e st text H. unfold say_battery, call. now rewrite H.
  - intros e st text H. unfold read_clipboard. now rewrite H.
Qed.

Lemma calm_calls_succeed (pick : nat) (st : State) (text : string) :
  calls_made_succeed (calm pick) st text.
Proof. repeat split; intros; eexists; reflexivity. Qed.

Lemma respond_returns_witness :
  calls_made_succeed (calm 0) init "battery" /\ returns (respond (calm 0) init "battery").
Proof.
  split; [exact (calm_calls_succeed 0 init "battery")|].
  exact (proj1 (proj1 respond_returns_when_unguarded_calls_succeed
                      (calm 0) init "battery") (calm_calls_succeed 0 init "battery")).
Defined.

(** C4, as the claim states it, fails: the battery query is not wrapped, so
    when it raises, the exception leaves [respond]. *)
Lemma battery_failure_propagates :
  out (respond battery_query_raises init "battery") = Raise "battery sensor unavailable" /\
  (forall s, out (respond battery_query_raises init "battery") <> Return s).
Proof. split; [reflexivity | intros s; vm_compute; discriminate]. Qed.

End Conversation.

Section Games.
Import PyStr Assistant.

Lemma take_guess_cases (e : Env) (st : State) (text : string) (secret : Z) :
  secret_number st = Some secret ->
  let r := take_guess e st text in
  (forall g, guess_token text = Some g -> (g < secret)%Z ->
     out r = Return "Too low! Try again." /\ state r = st) /\
  (forall g, guess_token text = Some g -> (g > secret)%Z ->
     out r = Return "Too high! Try again." /\ state r = st) /\
  (guess_token text = Some secret ->
     out r = Return "Correct! You guessed it!" /\
     game_active (state r) = false /\
     secret_number (state r) = Some secret /\
     rps_active (state r) = rps_active st /\
     user_profile (state r) = user_profile st) /\
  (guess_token text = None ->
     out r = Return "Please type like: guess 5" /\ state r = st).
Proof.
  intros Hs. unfold take_guess, guess_token. rewrite Hs.
  destruct (nth_error (split_ws text) 1) as [tok|]; cbn zeta;
    [destruct (int tok) as [g|]|]; (split; [|split; [|split]]).
  - intros g' [= <-] Hlt. apply Z.ltb_lt in Hlt. now rewrite Hlt.
  - intros g' [= <-] Hgt.
    assert ((g <? secret)%Z = false) as -> by (apply Z.ltb_ge; lia).
    apply Z.gtb_gt in Hgt. now rewrite Hgt.
  - intros [= ->]. now rewrite Z.ltb_irrefl, Z.gtb_ltb, Z.ltb_irrefl.
  - discriminate.
  - discriminate.
  - discriminate.
  - discriminate.
  - now split.
  - discriminate.
  - discriminate.
  - discriminate.
  - now split.
Qed.

(** C5, as the program has it.  In a running guess game, an input that
    starts with "guess" and that none of the rules 1 to 11 takes is answered
    from its second token: below the secret, the too-low hint and the state
    is kept; above, the too-high hint and the state is kept; equal, the game
    is switched off and the success message returned; no token or no integer,
    the usage hint and the state is kept. *)
Theorem guess_round (e : Env) (st : State) (text : string) (secret : Z) :
  game_active st = true ->
  secret_number st = Some secret ->
  startswith "guess" text = true ->
  (forall j q g, 1 <= j < 12 -> rule j = Some (q, g) -> q st text = false) ->
  let r := respond e st text in
  (forall g, guess_token text = Some g -> (g < secret)%Z ->
     out r = Return "Too low! Try again." /\ state r = st) /\
  (forall g, guess_token text = Some g -> (g > secret)%Z ->
     out r = Return "Too high! Try again." /\ state r = st) /\
  (guess_token text = Some secret ->
     out r = Return "Correct! You guessed it!" /\
     game_active (state r) = false /\
     secret_number (state r) = Some secret /\
     rps_active (state r) = rps_active st /\
     user_profile (state r) = user_profile st) /\
  (guess_token text = None ->
     out r = Return "Please type like: guess 5" /\ state r = st).
Proof.
  intros Ha Hs Hg Hearlier r.
  assert (Hr : r = take_guess e st text).
  { apply (respond_rule e st text 12 _ _ eq_refl).
    split; [lia | split; [| exact Hearlier]].
    exists (while_guessing (starts_with "guess")), take_guess.
    split; [reflexivity|]. cbv [while_guessing starts_with]. now rewrite Ha, Hg. }
  rewrite Hr. exact (take_guess_cases e st text secret Hs).
Qed.

Lemma guess_round_witness :
  out (respond (calm 0) (guessing 5) "guess 3") = Return "Too low! Try again." /\
  state (respond (calm 0) (guessing 5) "guess 3") = guessing 5.
Proof.
  refine (proj1 (guess_round (calm 0) (guessing 5) "guess 3" 5
                             eq_refl eq_refl eq_refl _) 3%Z eq_refl _);
    [ earlier_rules 12 | reflexivity ].
Defined.

(** C5, as the claim states it, fails.  "guess number" starts with "guess"
    and its second token is no integer, yet rule 11 takes it: the answer is
    the opening prompt and a new secret is drawn.  "guess 3 date" has a
    second token below the secret, yet rule 1 answers with the time. *)
Lemma guess_taken_by_earlier_rule :
  (game_active (guessing 5) = true /\
   startswith "guess" "guess number" = true /\
   guess_token "guess number" = None /\
   out (respond (calm 2) (guessing 5) "guess number")
     = Return "I'm thinking of a number between 1 and 10. Try to guess it!" /\
   secret_number (state (respond (calm 2) (guessing 5) "guess number")) = Some 3%Z) /\
  (startswith "guess" "guess 3 date" = true /\
   guess_token "guess 3 date" = Some 3%Z /\
   out (respond (calm 2) (guessing 5) "guess 3 date") = Return (now_text (calm 2))).
Proof. repeat split; reflexivity. Qed.

Lemma moves_trichotomy (a b : string) :
  In a moves -> In b moves -> a = b \/ beats a b \/ beats b a.
Proof.
  unfold moves; simpl; intros Ha Hb.
  repeat (destruct Ha as [<-|Ha]); try destruct Ha;
    repeat (destruct Hb as [<-|Hb]); try destruct Hb;
    auto using beats.
Qed.

Lemma choice_in_moves (e : Env) : In (choice e moves) moves.
Proof.
  unfold choice. apply nth_In. apply Nat.mod_upper_bound. discriminate.
Qed.

(** The verdict of the program agrees with the usual table. *)
Lemma rps_result_table (user bot : string) :
  In user moves -> In bot moves ->
  (user = bot -> rps_result user bot = "It's a tie!") /\
  (beats user bot -> rps_result user bot = "You win!") /\
  (beats bot user -> rps_result user bot = "I win!").
Proof.
  unfold moves; simpl; intros Hu Hb.
  repeat (destruct Hu as [<-|Hu]); try destruct Hu;
    repeat (destruct Hb as [<-|Hb]); try destruct Hb;
    repeat split; intros H; try reflexivity; try discriminate H; inversion H.
Qed.

(** C6. In a running rock-paper-scissors game, on "rock", "paper" or
    "scissors" and for every move the generator can draw, [respond] switches
    the game off (and writes nothing else) and returns the sentence that
    names the user's move, the bot's move and the verdict of the usual
    table: a tie on equal moves, a win for the user when their move
    beats the bot's, a win for the bot when its move beats the user's. *)
Theorem rps_round (e : Env) (st : State) (text : string) :
  rps_active st = true ->
  In text moves ->
  let bot := choice e moves in
  let r := respond e st text in
  In bot moves /\
  out r = Return ("You chose " ++ text ++ ", I chose " ++ bot ++ ". " ++ rps_result text bot) /\
  (text = bot -> rps_result text bot = "It's a tie!") /\
  (beats text bot -> rps_result text bot = "You win!") /\
  (beats bot text -> rps_result text bot = "I win!") /\
  (text = bot \/ beats text bot \/ beats bot text) /\
  rps_active (state r) = false /\
  game_active (state r) = game_active st /\
  secret_number (state r) = secret_number st /\
  user_profile (state r) = user_profile st /\
  (forall m, In m moves -> exists e', choice e' moves = m).
Proof.
  intros Hrps Hin bot r.
  assert (Hbot : In bot moves) by apply choice_in_moves.
  assert (Hr : r = play_rps e st text).
  { apply (respond_rule e st text 14 _ _ eq_refl).
    unfold moves in Hin; simpl in Hin.
    repeat (destruct Hin as [<-|Hin]); try destruct Hin;
      (split; [lia | split;
        [ exists (while_rps (is_exactly ["rock"; "paper"; "scissors"])), play_rps;
          split; [reflexivity | cbv [while_rps is_exactly]; now rewrite Hrps]
        | earlier_rules 14 ]]). }
  destruct (rps_result_table text bot Hin Hbot) as (Htie & Hwin & Hlose).
  rewrite Hr. repeat split; auto.
  - apply moves_trichotomy; assumption.
  - intros m Hm. unfold moves in Hm; simpl in Hm.
    destruct Hm as [<-|[<-|[<-|[]]]];
      [exists (calm 0) | exists (calm 1) | exists (calm 2)]; reflexivity.
Qed.

Lemma rps_round_witness :
  out (respond (calm 2) playing_rps "rock")
  = Return "You chose rock, I chose scissors. You win!".
Proof.
  refine (proj1 (proj2 (rps_round (calm 2) playing_rps "rock" eq_refl _))).
  simpl; tauto.
Defined.

End Games.

Section ProfileRoundTrip.
Import PyStr Assistant.

(** C7, as the program has it.  From a profile with no field set, "my name
    is alice" stores the capitalised name, and the answer to "what do you
    know about me", and to every input that contains the phrase and that
    none of the rules 1 to 17 takes, names "Alice" and says "unknown" for
    the favourite colour and for the birthday. *)
Theorem profile_round_trip (e1 e2 : Env) (st : State) :
  user_profile st = user_profile init ->
  let r1 := respond e1 st "my name is alice" in
  let answer :=
    "Your name is Alice, your favorite color is unknown, and your birthday is unknown." in
  out r1 = Return "Nice to meet you, Alice!" /\
  user_profile (state r1) =
    {| name := Some "Alice"; favorite_color := None; birthday := None |} /\
  out (respond e2 (state r1) "what do you know about me") = Return answer /\
  (forall text,
      contains "what do you know about me" text = true ->
      (forall j q g, 1 <= j < 18 -> rule j = Some (q, g) -> q (state r1) text = false) ->
      out (respond e2 (state r1) text) = Return answer) /\
  contains "Alice" answer = true /\
  contains "your favorite color is unknown" answer = true /\
  contains "your birthday is unknown" answer = true.
Proof.
  destruct st as [ga sn ra pr]. intros H. cbn [user_profile] in H. subst pr.
  cbv zeta.
  set (st0 := {| game_active := ga; secret_number := sn; rps_active := ra;
                 user_profile := user_profile init |}).
  assert (H1 : respond e1 st0 "my name is alice" = set_name e1 st0 "my name is alice").
  { apply (respond_rule e1 st0 _ 15 _ _ eq_refl). first_match_by_eval 15. }
  rewrite H1.
  set (st1 := state (set_name e1 st0 "my name is alice")).
  assert (Hrecall : forall text,
             recall e2 st1 text =
             ret st1 "Your name is Alice, your favorite color is unknown, and your birthday is unknown.")
    by reflexivity.
  repeat split.
  - rewrite (respond_rule e2 st1 "what do you know about me" 18 _ _ eq_refl).
    + now rewrite Hrecall.
    + first_match_by_eval 18.
  - intros text Hc Hearlier.
    rewrite (respond_rule e2 st1 text 18 _ _ eq_refl).
    + now rewrite Hrecall.
    + split; [lia | split; [| exact Hearlier]].
      exists (contains_any ["what do you know about me"]), recall.
      split; [reflexivity|]. cbv [contains_any existsb]. now rewrite Hc.
Qed.

Lemma profile_round_trip_witness :
  out (respond (calm 0) (state (respond (calm 0) init "my name is alice"))
               "what do you know about me")
  = Return "Your name is Alice, your favorite color is unknown, and your birthday is unknown.".
Proof.
  exact (proj1 (proj2 (proj2 (profile_round_trip (calm 0) (calm 0) init eq_refl)))).
Defined.

(** C7, as the claim states it, fails: an input that contains the phrase
    and also "time" is taken by rule 1 and answered with the time, and one
    that also contains "my birthday is" is taken by rule 17, which writes
    the birthday instead of recalling the profile. *)
Lemma recall_taken_by_earlier_rule :
  (contains "what do you know about me" "what do you know about me this time" = true /\
   out (respond (calm 0) (state (respond (calm 0) init "my name is alice"))
                "what do you know about me this time")
     = Return "It's 09:30 on Monday, January 01, 2024." /\
   contains "Alice" "It's 09:30 on Monday, January 01, 2024." = false) /\
  (contains "what do you know about me" "my birthday is near, what do you know about me"
     = true /\
   out (respond (calm 0) (state (respond (calm 0) init "my name is alice"))
                "my birthday is near, what do you know about me")
     = Return "Got it! Your birthday is on near, what do you know about me.").
Proof. repeat split; reflexivity. Qed.

End ProfileRoundTrip.

(** ** Start-up *)
Section StartupCheck.
Import Startup.

Lemma check_images_first_missing (exists_ : string -> bool) (paths : list string) :
  match filter (fun p => negb (exists_ p)) paths with
  | [] => check_images exists_ paths = {| printed := []; ended := WindowCreated |}
  | p :: _ =>
      check_images exists_ paths =
      {| printed := ["Missing image: " ++ p]; ended := Exited 1 |}
  end.
Proof.
  induction paths as [|q rest IH]; simpl; [reflexivity|].
  destruct (negb (exists_ q)); [reflexivity | exact IH].
Qed.

(** C8, as the program has it.  When one of the three sprite files is
    missing, start-up leaves with status 1 before the window is created and
    prints exactly one line, for the first missing file in the order idle,
    mouth-open, blink; when none is missing it prints nothing and goes on to
    create the window. *)
Theorem startup_stops_at_first_missing (exists_ : string -> bool) :
  (forall p rest, missing exists_ = p :: rest ->
     ended (main exists_) = Exited 1 /\
     printed (main exists_) = ["Missing image: " ++ p]) /\
  (missing exists_ = [] ->
     ended (main exists_) = WindowCreated /\ printed (main exists_) = []).
Proof.
  unfold main, missing.
  pose proof (check_images_first_missing exists_ [idle_img; mouth_open_img; blink_img]) as H.
  split.
  - intros p rest Hm. rewrite Hm in H. rewrite H. now split.
  - intros Hm. rewrite Hm in H. rewrite H. now split.
Qed.

Lemma startup_stops_witness :
  ended (main (fun p => String.eqb p idle_img)) = Exited 1 /\
  printed (main (fun p => String.eqb p idle_img)) = ["Missing image: " ++ mouth_open_img].
Proof.
  exact (proj1 (startup_stops_at_first_missing (fun p => String.eqb p idle_img))
               mouth_open_img [blink_img] eq_refl).
Defined.

(** C8, as the claim states it, fails: with two files missing, one line is
    printed, not two. *)
Lemma two_missing_one_line :
  List.length (missing (fun p => String.eqb p idle_img)) = 2 /\
  List.length (printed (main (fun p => String.eqb p idle_img))) = 1 /\
  ended (main (fun p => String.eqb p idle_img)) = Exited 1.
Proof. repeat split; reflexivity. Qed.

End StartupCheck.

(** ** The avatar's timers *)
Section AvatarTimers.
Import Avatar.

Lemma due_mono (m n d : nat) : m <= n -> due m d = true -> due n d = true.
Proof. unfold due. intros Hmn H. apply Nat.leb_le in H. apply Nat.leb_le. lia. Qed.

Lemma filter_due_twice (m n : nat) (l : list nat) :
  m <= n ->
  filter (fun d => negb (due n d)) (filter (fun d => negb (due m d)) l)
  = filter (fun d => negb (due n d)) l.
Proof.
  intros Hmn. induction l as [|d l IH]; simpl; [reflexivity|].
  destruct (due m d) eqn:Hm; simpl.
  - rewrite (due_mono m n d Hmn Hm). exact IH.
  - destruct (due n d); simpl; now rewrite IH.
Qed.

Lemma existsb_due_split (m n : nat) (l : list nat) :
  m <= n ->
  existsb (due n) l
  = existsb (due m) l || existsb (due n) (filter (fun d => negb (due m d)) l).
Proof.
  intros Hmn. induction l as [|d l IH]; simpl; [reflexivity|].
  destruct (due m d) eqn:Hm; simpl.
  - now rewrite (due_mono m n d Hmn Hm).
  - rewrite IH. destruct (due n d); simpl; [now rewrite orb_true_r | reflexivity].
Qed.

Lemma nothing_due_now (a : t) :
  pending_ahead a ->
  existsb (due (now a)) (single_shots a) = false /\
  filter (fun d => negb (due (now a) d)) (single_shots a) = single_shots a.
Proof.
  unfold pending_ahead. induction 1 as [|d l Hd _ [IH1 IH2]]; simpl; [now split|].
  assert (due (now a) d = false) as -> by (apply Nat.leb_gt; exact Hd).
  simpl. now rewrite IH1, IH2.
Qed.

(** The event loop in closed form: after [ms] milliseconds the sprite is idle
    when some pending deadline has passed, and unchanged otherwise. *)
Lemma elapse_closed_form (a : t) (ms : nat) :
  pending_ahead a ->
  elapse ms a =
  mk (if existsb (due (now a + ms)) (single_shots a) then idle else current a)
     (now a + ms)
     (filter (fun d => negb (due (now a + ms) d)) (single_shots a)).
Proof.
  intros Ha. induction ms as [|ms IH].
  - destruct (nothing_due_now a Ha) as [H1 H2].
    simpl. rewrite Nat.add_0_r, H1, H2. now destruct a.
  - unfold elapse in *. simpl Nat.iter. rewrite IH. unfold tick. cbn [current now single_shots].
    replace (S (now a + ms)) with (now a + S ms) by lia.
    rewrite (filter_due_twice (now a + ms) (now a + S ms)) by lia.
    rewrite (existsb_due_split (now a + ms) (now a + S ms) (single_shots a)) by lia.
    destruct (existsb (due (now a + ms)) (single_shots a)); simpl;
      destruct (existsb (due (now a + S ms)) _); reflexivity.
Qed.

(** After a [blink_once] the sprite is the blink until the earliest pending
    deadline, its own or an older one, and idle from then on. *)
Lemma blink_ends_at_earliest_deadline (a : t) (ms : nat) :
  pending_ahead a ->
  current (elapse ms (blink_once a)) =
  if existsb (due (now a + ms)) (single_shots a ++ [now a + 300])%list
  then idle else blink.
Proof.
  intros Ha. rewrite elapse_closed_form; [reflexivity|].
  unfold pending_ahead, blink_once, singleShot. cbn.
  apply Forall_app. split; [exact Ha | repeat constructor; lia].
Qed.

(** C3. The program at the failing input: [talk] at 0 ms, [blink_once] at
    500 ms.  The blink sprite is shown at once, but the single shot of the
    talk stays pending next to the one of the blink (deadlines 700 and 800)
    and brings the sprite back to idle at 700 ms, 200 ms after the call of
    [blink_once]; its comment says 300 ms. *)
Lemma blink_cut_short_by_talk_deadline :
  current (blink_once (elapse 500 (talk init))) = blink /\
  current (elapse 199 (blink_once (elapse 500 (talk init)))) = blink /\
  current (elapse 200 (blink_once (elapse 500 (talk init)))) = idle /\
  single_shots (blink_once (elapse 500 (talk init))) = [700; 800].
Proof. repeat split; vm_compute; reflexivity. Qed.

End AvatarTimers.

(** ** The bubble's reveal and its auto-hide *)
Section BubbleTimers.
Import Bubble.

Lemma take_next (s : string) (n : nat) :
  n < String.length s ->
  (PyStr.take n s ++
   match String.get n s with
   | Some c => String c EmptyString
   | None => EmptyString
   end)%string = PyStr.take (S n) s.
Proof.
  revert n. induction s as [|c s IH]; intros n Hn; simpl in Hn; [lia|].
  destruct n as [|n]; [reflexivity|].
  cbn [PyStr.take String.get append]. f_equal. apply IH. lia.
Qed.

Lemma revealed_show (m : string) (i : nat) (b : t) : revealed (show_animated_text m i b).
Proof. split; cbn; [lia | reflexivity]. Qed.

Lemma revealed_next (b : t) : revealed b -> revealed (_next_character b).
Proof.
  intros [Hle Hd]. unfold _next_character.
  destruct (Nat.ltb_spec (char_index b) (String.length (full_text b))) as [Hlt|Hge].
  - split; cbn; [lia|]. rewrite Hd. now apply take_next.
  - split; cbn; assumption.
Qed.

Lemma revealed_tick (b : t) : revealed b -> revealed (tick b).
Proof.
  intros Hb. unfold tick, fire_timer.
  set (c := fire_hides (advance b)).
  assert (Hc : revealed c) by exact Hb.
  destruct (timer c) as [[i d]|]; [|exact Hc].
  destruct (due (now c) d); [|exact Hc].
  exact (revealed_next c Hc).
Qed.

Lemma revealed_run (es : list event) (b : t) : revealed b -> revealed (run es b).
Proof.
  revert b. induction es as [|ev es IH]; intros b Hb; [exact Hb|].
  apply IH. destruct ev; [apply revealed_show | now apply revealed_next | now apply revealed_tick].
Qed.

Lemma reveal_progress (m : string) (i : nat) (b : t) (n : nat) :
  n <= String.length m ->
  Nat.iter n _next_character (show_animated_text m i b)
  = mk m (PyStr.take n m) n (PyStr.take n m) true (Some (i, now b + i)) (hide_shots b) (now b).
Proof.
  induction n as [|n IH]; intros Hn; [reflexivity|].
  simpl Nat.iter. rewrite IH by lia. unfold _next_character. cbn [char_index full_text].
  assert ((n <? String.length m)%nat = true) as -> by (apply Nat.ltb_lt; lia).
  cbn. rewrite take_next by lia. reflexivity.
Qed.

(** C9. Along every sequence of [show_animated_text] calls, timeouts of the
    reveal timer and milliseconds, the revealed length stays within the
    length of the message and the text shown is that prefix of it.  A
    timeout, and a millisecond too, leaves the length or adds one to it; a
    timeout below the full length adds exactly one character and schedules
    nothing; a timeout at the full length stops the timer and schedules the
    auto-hide; so after a call the first [n] timeouts reveal [n] characters,
    up to the whole message, and the next one schedules the auto-hide. *)
Theorem reveal_bounded_and_monotone (es : list event) :
  let b := run es init in
  char_index b <= String.length (full_text b) /\
  displayed_text b = PyStr.take (char_index b) (full_text b) /\
  (char_index (step b Timeout) = char_index b \/
   char_index (step b Timeout) = S (char_index b)) /\
  (char_index (step b Ms) = char_index b \/ char_index (step b Ms) = S (char_index b)) /\
  (char_index b < String.length (full_text b) ->
     char_index (_next_character b) = S (char_index b) /\
     timer (_next_character b) = timer b /\
     hide_shots (_next_character b) = hide_shots b) /\
  (char_index b = String.length (full_text b) ->
     char_index (_next_character b) = char_index b /\
     timer (_next_character b) = None /\
     hide_shots (_next_character b) = (hide_shots b ++ [now b + auto_hide_ms])%list) /\
  (forall m i n, n <= String.length m ->
     char_index (Nat.iter n _next_character (show_animated_text m i b)) = n /\
     displayed_text (Nat.iter n _next_character (show_animated_text m i b)) = PyStr.take n m) /\
  (forall m i,
     let full := Nat.iter (String.length m) _next_character (show_animated_text m i b) in
     char_index full = String.length m /\
     displayed_text full = m /\
     hide_shots full = hide_shots b /\
     timer (_next_character full) = None /\
     hide_shots (_next_character full) = (hide_shots b ++ [now b + auto_hide_ms])%list).
Proof.
  intros b.
  assert (Hb : revealed b) by (apply revealed_run; split; cbn; [lia | reflexivity]).
  destruct Hb as [Hle Hd].
  assert (Hnext : forall c : t,
             char_index (_next_character c) = char_index c \/
             char_index (_next_character c) = S (char_index c)).
  { intros c. unfold _next_character.
    destruct (char_index c <? String.length (full_text c))%nat; cbn; auto. }
  split; [exact Hle | split; [exact Hd | split; [apply Hnext | split; [| split; [| split; [| split]]]]]].
  - cbn [step]. unfold tick, fire_timer.
    set (c := fire_hides (advance b)).
    change (char_index b) with (char_index c).
    destruct (timer c) as [[i d]|]; [|now left].
    destruct (due (now c) d); [|now left].
    exact (Hnext c).
  - intros Hlt. unfold _next_character.
    apply Nat.ltb_lt in Hlt. rewrite Hlt. cbn. auto.
  - intros Heq. unfold _next_character.
    assert ((char_index b <? String.length (full_text b))%nat = false) as ->
        by (apply Nat.ltb_ge; lia).
    cbn. auto.
  - intros m i n Hn. rewrite reveal_progress by exact Hn. cbn. auto.
  - intros m i full. subst full. rewrite reveal_progress by lia.
    unfold _next_character. cbn [char_index full_text].
    rewrite Nat.ltb_irrefl. cbn.
    assert (Htake : forall s, PyStr.take (String.length s) s = s)
      by (induction s as [|c s IH]; cbn; [reflexivity | now rewrite IH]).
    rewrite Htake. auto.
Qed.

Lemma reveal_bounded_and_monotone_witness :
  char_index (Nat.iter 2 _next_character (show_animated_text "Hi" 30 (run [Ms; Ms] init))) = 2 /\
  displayed_text (Nat.iter 2 _next_character (show_animated_text "Hi" 30 (run [Ms; Ms] init)))
    = "Hi".
Proof.
  destruct (reveal_bounded_and_monotone [Ms; Ms]) as (_ & _ & _ & _ & _ & _ & H & _).
  exact (H "Hi" 30 2 (le_n 2)).
Defined.

Lemma now_tick (b : t) : now (tick b) = S (now b).
Proof.
  unfold tick, fire_timer. set (c := fire_hides (advance b)).
  change (S (now b)) with (now c).
  destruct (timer c) as [[i d]|]; [|reflexivity].
  destruct (due (now c) d); [|reflexivity].
  unfold rearm, _next_character.
  destruct (char_index c <? String.length (full_text c))%nat; reflexivity.
Qed.

Lemma elapse_S (b : t) (ms : nat) : elapse (S ms) b = tick (elapse ms b).
Proof. reflexivity. Qed.

Lemma now_elapse (b : t) (ms : nat) : now (elapse ms b) = now b + ms.
Proof.
  induction ms as [|ms IH]; [cbn; lia|].
  rewrite elapse_S, now_tick, IH. lia.
Qed.

Lemma fire_timer_keeps (b : t) :
  visible (fire_timer b) = visible b /\
  forall h, In h (hide_shots b) -> In h (hide_shots (fire_timer b)).
Proof.
  unfold fire_timer.
  destruct (timer b) as [[i d]|]; [|now split].
  destruct (due (now b) d); [|now split].
  unfold rearm, _next_character.
  destruct (char_index b <? String.length (full_text b))%nat; cbn; split; auto.
  intros h Hh. apply in_or_app. now left.
Qed.

(** A pending auto-hide stays in the queue until its deadline. *)
Lemma hide_stays_pending (b : t) (h ms : nat) :
  In h (hide_shots b) -> now b + ms < h -> In h (hide_shots (elapse ms b)).
Proof.
  intros Hin. induction ms as [|ms IH]; intros Hlt; [exact Hin|].
  rewrite elapse_S.
  set (c := elapse ms b) in *.
  assert (Hc : In h (hide_shots c)) by (apply IH; lia).
  assert (Hnow : now c = now b + ms) by apply now_elapse.
  clearbody c.
  unfold tick. apply fire_timer_keeps. unfold fire_hides. cbn.
  apply filter_In. split; [exact Hc|].
  unfold due. apply negb_true_iff, Nat.leb_gt. lia.
Qed.

(** At its deadline a pending auto-hide hides the bubble. *)
Lemma hide_fires (b : t) (h ms : nat) :
  In h (hide_shots b) -> now b + S ms = h -> visible (elapse (S ms) b) = false.
Proof.
  intros Hin Hh.
  assert (Hc : In h (hide_shots (elapse ms b))) by (apply hide_stays_pending; [exact Hin | lia]).
  assert (Hnow : now (elapse ms b) = now b + ms) by apply now_elapse.
  rewrite elapse_S.
  set (c := elapse ms b) in *. clearbody c.
  unfold tick. rewrite (proj1 (fire_timer_keeps _)). unfold fire_hides. cbn.
  assert (existsb (due (S (now c))) (hide_shots c) = true) as ->; [|reflexivity].
  apply existsb_exists. exists h. split; [exact Hc|].
  unfold due. apply Nat.leb_le. lia.
Qed.

(** C2, as the program has it.  A new call of [show_animated_text] starts
    the reveal again from length zero, shows the bubble and arms the one
    reveal timer for the new message, so no tick of the earlier reveal is
    left.  The auto-hides already scheduled are single shots without handle:
    they all stay scheduled, and each one still pending hides the bubble at
    its own deadline, whatever the new message is doing then. *)
Theorem show_again_restarts_reveal_keeps_hides (b : t) (m : string) (i : nat) :
  let b' := show_animated_text m i b in
  (full_text b' = m /\ char_index b' = 0 /\ displayed_text b' = "" /\ label b' = "" /\
   visible b' = true /\ timer b' = Some (i, now b + i)) /\
  hide_shots b' = hide_shots b /\
  (forall h, In h (hide_shots b) -> now b < h ->
     (forall ms, now b + ms < h -> In h (hide_shots (elapse ms b'))) /\
     visible (elapse (h - now b) b') = false).
Proof.
  intros b'. split; [repeat split | split; [reflexivity|]].
  intros h Hin Hlt. split.
  - intros ms Hms. now apply hide_stays_pending.
  - replace (h - now b) with (S (h - now b - 1)) by lia.
    apply (hide_fires b' h); [exact Hin | cbn; lia].
Qed.

Lemma show_again_witness :
  visible (elapse 6000
             (show_animated_text "Hello" 30
                (_next_character (show_animated_text "" 30 init)))) = false.
Proof.
  exact (proj2 (proj2 (proj2 (show_again_restarts_reveal_keeps_hides
                                (_next_character (show_animated_text "" 30 init))
                                "Hello" 30))
                      6000 (or_introl eq_refl) (Nat.lt_0_succ _))).
Defined.

(** C2, as the claim states it, fails.  "Hi" is fully shown and its auto-hide
    is due at 6090; a second message shown at 6000 finds that timer still
    scheduled, and at 6090 the bubble is hidden with three of the five
    characters of the new message revealed and its reveal timer running. *)
Lemma earlier_hide_hides_new_message :
  let b1 := elapse 90 (show_animated_text "Hi" 30 init) in
  let b2 := show_animated_text "Hello" 30 (elapse 5910 b1) in
  hide_shots b1 = [6090] /\
  hide_shots b2 = [6090] /\
  visible b2 = true /\
  visible (elapse 90 b2) = false /\
  char_index (elapse 90 b2) = 3 /\
  timer (elapse 90 b2) = Some (30, 6120).
Proof. vm_compute. repeat split. Qed.

End BubbleTimers.

(** ** More on the avatar: it always comes back to idle *)
Section AvatarSettles.
Import Avatar AvatarLoop.

Lemma none_due_filter (n : nat) (l : list nat) :
  existsb (due n) l = false -> filter (fun d => negb (due n d)) l = l.
Proof.
  induction l as [|d l IH]; simpl; [reflexivity|].
  destruct (due n d); simpl; [discriminate|]. intros H. now rewrite IH.
Qed.

Lemma all_due_filter (n : nat) (l : list nat) :
  Forall (fun d => d <= n) l -> filter (fun d => negb (due n d)) l = [].
Proof.
  induction 1 as [|d l Hd _ IH]; simpl; [reflexivity|].
  assert (due n d = true) as -> by (apply Nat.leb_le; exact Hd). exact IH.
Qed.

Lemma some_due (n : nat) (l : list nat) :
  l <> [] -> Forall (fun d => d <= n) l -> existsb (due n) l = true.
Proof.
  intros Hne Hall. destruct Hall as [|d l Hd _]; [contradiction|].
  simpl. assert (due n d = true) as -> by (apply Nat.leb_le; exact Hd). reflexivity.
Qed.

Lemma on_the_way_back_init : on_the_way_back init.
Proof. repeat split; try constructor. intros H; now contradiction H. Qed.

Lemma on_the_way_back_call (ms : nat) (s : sprite) (a : t) :
  0 < ms <= 700 ->
  on_the_way_back a ->
  on_the_way_back (singleShot ms (mk s (now a) (single_shots a))).
Proof.
  intros Hms (Hp & Hb & _). unfold on_the_way_back, pending_ahead, singleShot. cbn.
  repeat split.
  - apply Forall_app. split; [exact Hp | repeat constructor; lia].
  - apply Forall_app. split; [exact Hb | repeat constructor; lia].
  - intros _ H. now apply app_eq_nil in H as [_ H].
Qed.

Lemma on_the_way_back_tick (a : t) : on_the_way_back a -> on_the_way_back (tick a).
Proof.
  intros (Hp & Hb & Hc). unfold tick.
  assert (Hp' : Forall (fun d => S (now a) < d)
                       (filter (fun d => negb (due (S (now a)) d)) (single_shots a))).
  { apply Forall_forall. intros d Hd. apply filter_In in Hd as [_ Hd].
    apply negb_true_iff, Nat.leb_gt in Hd. exact Hd. }
  assert (Hb' : Forall (fun d => d <= S (now a) + 700)
                       (filter (fun d => negb (due (S (now a)) d)) (single_shots a))).
  { apply Forall_forall. intros d Hd. apply filter_In in Hd as [Hd _].
    rewrite Forall_forall in Hb. specialize (Hb d Hd). lia. }
  destruct (existsb (due (S (now a))) (single_shots a)) eqn:Hdue.
  - unfold return_to_idle. cbn. repeat split; [exact Hp' | exact Hb' |].
    intros H; now contradiction H.
  - cbn. repeat split; [exact Hp' | exact Hb' |].
    rewrite (none_due_filter _ _ Hdue). exact Hc.
Qed.

Lemma on_the_way_back_run (es : list event) (a : t) :
  on_the_way_back a -> on_the_way_back (run es a).
Proof.
  revert a. induction es as [|ev es IH]; intros a Ha; [exact Ha|].
  apply IH. destruct ev; cbn [step].
  - apply (on_the_way_back_call 700 mouth_open a); [lia | exact Ha].
  - apply (on_the_way_back_call 300 blink a); [lia | exact Ha].
  - now apply on_the_way_back_tick.
Qed.

(** X1. Whatever calls of [talk] and [blink_once] were made and whenever,
    once 700 ms go by without a further call the sprite is idle and no
    single shot is left pending. *)
Theorem avatar_settles (es : list event) (ms : nat) :
  700 <= ms ->
  current (elapse ms (run es init)) = idle /\
  single_shots (elapse ms (run es init)) = [].
Proof.
  intros Hms.
  destruct (on_the_way_back_run es init on_the_way_back_init) as (Hp & Hb & Hc).
  set (a := run es init) in *. rewrite (elapse_closed_form a ms Hp). cbn.
  assert (Hall : Forall (fun d => d <= now a + ms) (single_shots a)).
  { apply Forall_forall. intros d Hd. rewrite Forall_forall in Hb.
    specialize (Hb d Hd). lia. }
  split; [| exact (all_due_filter _ _ Hall)].
  destruct (single_shots a) as [|d l] eqn:Hl.
  - cbn. destruct (current a); [reflexivity | |]; exfalso; apply Hc; congruence.
  - now rewrite (some_due (now a + ms) (d :: l)).
Qed.

Lemma avatar_settles_witness :
  current (elapse 700 (run [Talk; Ms; Ms; Blink; Ms; Talk] init)) = idle /\
  single_shots (elapse 700 (run [Talk; Ms; Ms; Blink; Ms; Talk] init)) = [].
Proof. exact (avatar_settles [Talk; Ms; Ms; Blink; Ms; Talk] 700 (le_n 700)). Defined.

Lemma one_shot_alone (s : sprite) (dur ms : nat) (a : t) :
  single_shots a = [] -> 0 < dur ->
  current (elapse ms (singleShot dur (mk s (now a) (single_shots a))))
  = if (ms <? dur)%nat then s else idle.
Proof.
  intros Hq Hdur. rewrite elapse_closed_form.
  - unfold singleShot. cbn [current now single_shots]. rewrite Hq.
    cbn [app existsb]. unfold due.
    destruct (Nat.ltb_spec ms dur).
    + assert ((now a + dur <=? now a + ms)%nat = false) as -> by (apply Nat.leb_gt; lia).
      reflexivity.
    + assert ((now a + dur <=? now a + ms)%nat = true) as -> by (apply Nat.leb_le; lia).
      reflexivity.
  - unfold pending_ahead, singleShot. cbn. rewrite Hq. repeat constructor. lia.
Qed.

(** X2. With no timer pending, [talk] shows the open mouth for exactly 700
    ms and [blink_once] the blink for exactly 300 ms; the sprite is idle from
    then on. *)
Theorem talk_and_blink_durations (a : t) (ms : nat) :
  single_shots a = [] ->
  current (elapse ms (talk a)) = (if (ms <? 700)%nat then mouth_open else idle) /\
  current (elapse ms (blink_once a)) = (if (ms <? 300)%nat then blink else idle).
Proof.
  intros Hq. split.
  - apply (one_shot_alone mouth_open 700 ms a Hq). lia.
  - apply (one_shot_alone blink 300 ms a Hq). lia.
Qed.

Lemma talk_and_blink_durations_witness :
  current (elapse 699 (talk init)) = mouth_open /\
  current (elapse 299 (blink_once init)) = blink.
Proof.
  split.
  - exact (proj1 (talk_and_blink_durations init 699 eq_refl)).
  - exact (proj2 (talk_and_blink_durations init 299 eq_refl)).
Defined.

(** X3. A [talk] issued [d] ms into a blink (with nothing else pending)
    shows the open mouth at once, but only until the blink's deadline: the
    sprite is idle again [300 - d] ms after the call, not 700. *)
Theorem talk_cut_short_by_blink (a : t) (d ms : nat) :
  single_shots a = [] ->
  d < 300 ->
  let a1 := talk (elapse d (blink_once a)) in
  current a1 = mouth_open /\
  single_shots a1 = [now a + 300; now a + d + 700] /\
  current (elapse ms a1) = if (ms <? 300 - d)%nat then mouth_open else idle.
Proof.
  intros Hq Hd.
  assert (Hb : pending_ahead (blink_once a)).
  { unfold pending_ahead, blink_once, singleShot. cbn. rewrite Hq. repeat constructor. lia. }
  assert (H1 : elapse d (blink_once a) = mk blink (now a + d) [now a + 300]).
  { rewrite (elapse_closed_form _ d Hb). unfold blink_once, singleShot. cbn. rewrite Hq. cbn.
    assert (due (now a + d) (now a + 300) = false) as -> by (apply Nat.leb_gt; lia).
    reflexivity. }
  cbv zeta. rewrite H1. unfold talk, singleShot. cbn [current now single_shots app].
  split; [reflexivity | split; [reflexivity|]].
  rewrite elapse_closed_form.
  - cbn [current now single_shots existsb]. unfold due.
    destruct (Nat.ltb_spec ms (300 - d)) as [Hlt|Hge].
    + assert ((now a + 300 <=? now a + d + ms)%nat = false) as -> by (apply Nat.leb_gt; lia).
      assert ((now a + d + 700 <=? now a + d + ms)%nat = false) as -> by (apply Nat.leb_gt; lia).
      reflexivity.
    + assert ((now a + 300 <=? now a + d + ms)%nat = true) as -> by (apply Nat.leb_le; lia).
      reflexivity.
  - unfold pending_ahead. cbn. repeat constructor; lia.
Qed.

Lemma talk_cut_short_by_blink_witness :
  current (elapse 100 (talk (elapse 200 (blink_once init)))) = idle.
Proof.
  refine (proj2 (proj2 (talk_cut_short_by_blink init 200 100 eq_refl _))).
  apply Nat.ltb_lt. reflexivity.
Defined.

End AvatarSettles.

Section BlinkTimer.
Import Avatar AvatarLoop.

Lemma blinks_every (P k : nat) :
  300 <= P ->
  Nat.iter (S k) (fun a => blink_once (elapse P a)) init
  = mk blink (P * S k) [P * S k + 300].
Proof.
  intros HP. induction k as [|k IH].
  - change (Nat.iter 1 (fun a => blink_once (elapse P a)) init)
      with (blink_once (elapse P init)).
    rewrite elapse_closed_form by constructor.
    unfold blink_once, singleShot. cbn [current now single_shots init existsb filter app].
    now rewrite Nat.mul_1_r.
  - change (Nat.iter (S (S k)) (fun a => blink_once (elapse P a)) init)
      with (blink_once (elapse P (Nat.iter (S k) (fun a => blink_once (elapse P a)) init))).
    rewrite IH. rewrite elapse_closed_form by (repeat constructor; cbn; lia).
    cbn [current now single_shots existsb filter].
    assert (due (P * S k + P) (P * S k + 300) = true) as -> by (apply Nat.leb_le; lia).
    cbn [orb negb]. unfold blink_once, singleShot. cbn [current now single_shots app].
    replace (P * S (S k)) with (P * S k + P) by (rewrite (Nat.mul_succ_r P (S k)); reflexivity).
    reflexivity.
Qed.

(** X4. Left to the blink timer alone, the avatar shows the blink sprite
    during the first 300 ms after each timeout (every 5000 ms) and the idle
    sprite the rest of the period; one return-to-idle timer is pending while
    it blinks and none afterwards, so timers do not pile up. *)
Theorem blink_timer_period (k r : nat) :
  1 <= k ->
  r < blink_interval_ms ->
  let a := elapse r (after_blinks k) in
  now a = blink_interval_ms * k + r /\
  current a = (if (r <? 300)%nat then blink else idle) /\
  single_shots a = (if (r <? 300)%nat then [blink_interval_ms * k + 300] else []).
Proof.
  intros Hk Hr. destruct k as [|k]; [lia|]. clear Hk.
  assert (HP : 300 <= blink_interval_ms) by (apply Nat.leb_le; reflexivity).
  unfold after_blinks. cbv zeta. rewrite (blinks_every blink_interval_ms k HP).
  generalize dependent blink_interval_ms. intros P Hr HP.
  rewrite elapse_closed_form by (repeat constructor; cbn; lia).
  cbn [current now single_shots existsb filter]. unfold due.
  destruct (Nat.ltb_spec r 300).
  - assert ((P * S k + 300 <=? P * S k + r)%nat = false) as -> by (apply Nat.leb_gt; lia).
    now cbn.
  - assert ((P * S k + 300 <=? P * S k + r)%nat = true) as -> by (apply Nat.leb_le; lia).
    now cbn.
Qed.

Lemma blink_timer_period_witness :
  current (elapse 299 (after_blinks 2)) = blink /\
  current (elapse 300 (after_blinks 2)) = idle.
Proof.
  split.
  - refine (proj1 (proj2 (blink_timer_period 2 299 (le_S _ _ (le_n 1)) _))).
    apply Nat.ltb_lt. reflexivity.
  - refine (proj1 (proj2 (blink_timer_period 2 300 (le_S _ _ (le_n 1)) _))).
    apply Nat.ltb_lt. reflexivity.
Defined.

End BlinkTimer.

(** ** More on the bubble: the whole life of one message *)
Section BubbleLifetime.
Import Bubble.

Ltac quiet_side :=
  cbn [full_text displayed_text char_index label visible timer hide_shots now];
  first [lia | exact I | constructor; [lia | constructor] | constructor].

Lemma elapse_add (b : t) (m n : nat) : elapse (m + n) b = elapse n (elapse m b).
Proof. unfold elapse. rewrite Nat.add_comm. apply Nat.iter_add. Qed.

Lemma no_hide_due (n : nat) (l : list nat) :
  Forall (fun h => n < h) l ->
  existsb (due n) l = false /\ filter (fun d => negb (due n d)) l = l.
Proof.
  induction 1 as [|h l Hh _ [IH1 IH2]]; simpl; [now split|].
  assert (due n h = false) as -> by (apply Nat.leb_gt; exact Hh).
  simpl. now rewrite IH1, IH2.
Qed.

(** While neither the reveal timer nor an auto-hide is due, the event loop
    only moves the clock. *)
Lemma quiet_time (b : t) (r : nat) :
  Forall (fun h => now b + r < h) (hide_shots b) ->
  match timer b with Some (_, d) => now b + r < d | None => True end ->
  elapse r b =
  mk (full_text b) (displayed_text b) (char_index b) (label b) (visible b)
     (timer b) (hide_shots b) (now b + r).
Proof.
  induction r as [|r IH]; intros Hh Ht.
  - cbn. rewrite Nat.add_0_r. now destruct b.
  - rewrite elapse_S, IH.
    + unfold tick, advance, fire_hides. cbn [full_text displayed_text char_index label
                                              visible timer hide_shots now].
      destruct (no_hide_due (S (now b + r)) (hide_shots b)) as [H1 H2].
      { eapply Forall_impl; [|exact Hh]. cbn. intros; lia. }
      rewrite H1, H2. unfold fire_timer. cbn [timer now].
      replace (now b + S r) with (S (now b + r)) by lia.
      destruct (timer b) as [[i d]|]; [|reflexivity].
      assert (due (S (now b + r)) d = false) as -> by (apply Nat.leb_gt; lia).
      reflexivity.
    + eapply Forall_impl; [|exact Hh]. cbn. intros; lia.
    + destruct (timer b) as [[i d]|]; [lia | exact I].
Qed.

(** One interval of the reveal: the timer fires at its deadline and shows
    one more character. *)
Lemma reveal_interval (m : string) (i k t0 : nat) (v : bool) :
  1 <= i -> k < String.length m ->
  elapse i (mk m (PyStr.take k m) k (PyStr.take k m) v (Some (i, t0 + i)) [] t0)
  = mk m (PyStr.take (S k) m) (S k) (PyStr.take (S k) m) v (Some (i, t0 + i + i)) [] (t0 + i).
Proof.
  intros Hi Hk. destruct i as [|i]; [lia|].
  rewrite elapse_S, quiet_time by quiet_side.
  cbn [full_text displayed_text char_index label visible timer hide_shots now].
  unfold tick, advance, fire_hides, fire_timer.
  cbn [full_text displayed_text char_index label visible timer hide_shots now existsb filter].
  replace (S (t0 + i)) with (t0 + S i) by lia.
  assert (due (t0 + S i) (t0 + S i) = true) as -> by (apply Nat.leb_le; lia).
  unfold _next_character. cbn [full_text displayed_text char_index label visible timer
                                hide_shots now].
  assert ((k <? String.length m)%nat = true) as -> by (apply Nat.ltb_lt; exact Hk).
  rewrite take_next by exact Hk. reflexivity.
Qed.

Lemma reveal_at (m : string) (i : nat) (b0 : t) (k : nat) :
  1 <= i -> hide_shots b0 = [] -> k <= String.length m ->
  elapse (i * k) (show_animated_text m i b0)
  = mk m (PyStr.take k m) k (PyStr.take k m) true
       (Some (i, now b0 + i * k + i)) [] (now b0 + i * k).
Proof.
  intros Hi Hq. induction k as [|k IH]; intros Hk.
  - rewrite Nat.mul_0_r, !Nat.add_0_r. unfold show_animated_text. now rewrite Hq.
  - rewrite Nat.mul_succ_r, elapse_add, IH by lia.
    rewrite reveal_interval by lia.
    now rewrite !Nat.add_assoc.
Qed.

Lemma take_all (s : string) : PyStr.take (String.length s) s = s.
Proof. induction s as [|c s IH]; cbn; [reflexivity | now rewrite IH]. Qed.

(** The timeout after the last character stops the timer and schedules the
    auto-hide. *)
Lemma reveal_stop (m : string) (i t0 : nat) (v : bool) :
  1 <= i ->
  elapse i (mk m m (String.length m) m v (Some (i, t0 + i)) [] t0)
  = mk m m (String.length m) m v None [t0 + i + auto_hide_ms] (t0 + i).
Proof.
  intros Hi. destruct i as [|i]; [lia|].
  rewrite elapse_S, quiet_time by quiet_side.
  cbn [full_text displayed_text char_index label visible timer hide_shots now].
  unfold tick, advance, fire_hides, fire_timer.
  cbn [full_text displayed_text char_index label visible timer hide_shots now existsb filter].
  replace (S (t0 + i)) with (t0 + S i) by lia.
  assert (due (t0 + S i) (t0 + S i) = true) as -> by (apply Nat.leb_le; lia).
  unfold _next_character. cbn [full_text displayed_text char_index label visible timer
                                hide_shots now].
  rewrite Nat.ltb_irrefl. reflexivity.
Qed.

(** At its deadline the only pending auto-hide hides the bubble. *)
Lemma hide_at_deadline (m d : string) (n t0 h : nat) (v : bool) :
  1 <= h ->
  elapse h (mk m d n d v None [t0 + h] t0) = mk m d n d false None [] (t0 + h).
Proof.
  intros Hh. destruct h as [|h]; [lia|].
  rewrite elapse_S, quiet_time by quiet_side.
  cbn [full_text displayed_text char_index label visible timer hide_shots now].
  unfold tick, advance, fire_hides, fire_timer.
  cbn [full_text displayed_text char_index label visible timer hide_shots now existsb filter].
  replace (S (t0 + h)) with (t0 + S h) by lia.
  assert (due (t0 + S h) (t0 + S h) = true) as -> by (apply Nat.leb_le; lia).
  reflexivity.
Qed.

(** X5. The life of one message shown in a bubble with no auto-hide pending,
    left alone, with interval [i >= 1] and [n] characters: during the [k]-th
    interval exactly [k] characters are shown ([k <= n]); the timeout at
    [i * (n + 1)] stops the timer; the full message stays visible for the
    6000 ms that follow, and at [i * (n + 1) + 6000] the bubble is hidden,
    with no timer left. *)
Theorem bubble_lifetime (m : string) (i : nat) (b0 : t) :
  1 <= i ->
  hide_shots b0 = [] ->
  let b := show_animated_text m i b0 in
  let n := String.length m in
  (forall k r, k <= n -> r < i ->
     let c := elapse (i * k + r) b in
     char_index c = k /\ label c = PyStr.take k m /\ visible c = true /\
     timer c = Some (i, now b0 + i * k + i)) /\
  (forall r, r < auto_hide_ms ->
     let c := elapse (i * (n + 1) + r) b in
     label c = m /\ visible c = true /\ timer c = None /\
     hide_shots c = [now b0 + i * (n + 1) + auto_hide_ms]) /\
  (let c := elapse (i * (n + 1) + auto_hide_ms) b in
   label c = m /\ visible c = false /\ timer c = None /\ hide_shots c = []).
Proof.
  intros Hi Hq b n.
  assert (Hstop : elapse (i * (n + 1)) b
                  = mk m m n m true None [now b0 + i * (n + 1) + auto_hide_ms]
                       (now b0 + i * (n + 1))).
  { replace (i * (n + 1)) with (i * n + i) by lia.
    subst b. rewrite elapse_add, (reveal_at m i b0 n Hi Hq (le_n _)).
    subst n. rewrite take_all, reveal_stop by exact Hi.
    now rewrite !Nat.add_assoc. }
  split; [| split].
  - intros k r Hk Hr c. subst c b.
    rewrite elapse_add, (reveal_at m i b0 k Hi Hq Hk).
    rewrite quiet_time by quiet_side.
    cbn. auto.
  - intros r Hr c. subst c. rewrite elapse_add, Hstop.
    rewrite quiet_time by quiet_side.
    cbn. auto.
  - intros c. subst c. rewrite elapse_add, Hstop.
    rewrite hide_at_deadline by (apply Nat.leb_le; reflexivity).
    cbn. auto.
Qed.

Lemma bubble_lifetime_witness :
  visible (elapse (30 * (2 + 1) + auto_hide_ms) (show_animated_text "Hi" 30 init)) = false.
Proof.
  refine (proj1 (proj2 (proj2 (proj2 (bubble_lifetime "Hi" 30 init _ eq_refl))))).
  apply Nat.leb_le. reflexivity.
Defined.

End BubbleLifetime.

(** ** The input line and the hourly summary *)
Section Window.
Import PyStr Assistant Shell.

Lemma rstrip_blank (s : string) : blank s = true -> rstrip s = "".
Proof.
  induction s as [|c s IH]; cbn; [reflexivity|].
  intros H. apply andb_true_iff in H as [Hc Hs]. now rewrite (IH Hs), Hc.
Qed.

(** X7. An input line that is empty or made of whitespace only is ignored:
    [handle_input] changes nothing in the window, the line itself included,
    and [respond] is not called. *)
Theorem blank_input_ignored (e : Env) (d : Desktop) :
  blank (input_line d) = true ->
  handle_input e d = (d, None).
Proof.
  intros H. unfold handle_input, strip. now rewrite (rstrip_blank _ H).
Qed.

Lemma blank_input_ignored_witness :
  handle_input (calm 0) (fresh "   ") = (fresh "   ", None).
Proof. exact (blank_input_ignored (calm 0) (fresh "   ") eq_refl). Defined.

Lemma one_of_cases (l : list string) (s : string) :
  one_of l s = true -> In s l.
Proof.
  unfold one_of. intros H. apply existsb_exists in H as (x & Hx & Heq).
  apply String.eqb_eq in Heq. now subst.
Qed.

Lemma goodbye_rule (e : Env) (st : State) (text : string) :
  one_of ["exit"; "quit"; "close"; "bye"] text = true ->
  respond e st text = say_goodbye e st text.
Proof.
  intros H. apply one_of_cases in H. cbn in H.
  apply (respond_rule e st text 10 _ _ eq_refl).
  destruct H as [<-|[<-|[<-|[<-|[]]]]]; first_match_by_eval 10.
Qed.

(** With an empty message the reveal has nothing to show, now or later. *)
Lemma empty_message_stays_empty (b : Bubble.t) (ms : nat) :
  Bubble.full_text b = "" -> Bubble.label b = "" ->
  Bubble.full_text (Bubble.elapse ms b) = "" /\ Bubble.label (Bubble.elapse ms b) = "".
Proof.
  intros Hf Hl. induction ms as [|ms [IHf IHl]]; [now split|].
  rewrite elapse_S. set (c := Bubble.elapse ms b) in *. clearbody c.
  unfold Bubble.tick, Bubble.fire_timer.
  set (c' := Bubble.fire_hides (Bubble.advance c)).
  assert (Hf' : Bubble.full_text c' = "") by exact IHf.
  assert (Hl' : Bubble.label c' = "") by exact IHl.
  clearbody c'.
  destruct (Bubble.timer c') as [[i dl]|]; [|now split].
  destruct (Bubble.due (Bubble.now c') dl); [|now split].
  unfold Bubble.rearm, Bubble._next_character. rewrite Hf'. cbn.
  now split.
Qed.

(** X6. On "exit", "quit", "close" or "bye" (in any letter case, with any
    whitespace around) [handle_input] schedules the quit 2000 ms ahead and
    makes the avatar talk twice, but the goodbye message is replaced at once
    by the empty response that [respond] returns: the bubble is left with an
    empty message and shows no character, then or at any later time. *)
Theorem goodbye_is_never_shown (e : Env) (d : Desktop) :
  one_of ["exit"; "quit"; "close"; "bye"] (lower (strip (input_line d))) = true ->
  let d' := fst (handle_input e d) in
  snd (handle_input e d) = None /\
  Bubble.full_text (bubble d') = "" /\
  (forall ms, Bubble.label (Bubble.elapse ms (bubble d')) = "") /\
  Bubble.visible (bubble d') = true /\
  quit_shots d' = (quit_shots d ++ [Bubble.now (bubble d) + 2000])%list /\
  Avatar.single_shots (avatar d') =
    (Avatar.single_shots (avatar d) ++
     [Avatar.now (avatar d) + 700; Avatar.now (avatar d) + 700])%list /\
  conv d' = conv d /\ input_line d' = "" /\ outside d' = outside d.
Proof.
  intros H. unfold handle_input.
  destruct (lower (strip (input_line d))) as [|c t] eqn:Htext; [discriminate|].
  rewrite (goodbye_rule e (conv d) _ H).
  cbn [say_goodbye ret_with out effects state fold_left perform fst snd
       conv avatar bubble input_line quit_shots outside show_bubble].
  repeat split.
  - intros ms. now apply empty_message_stays_empty.
  - unfold Avatar.talk, Avatar.singleShot. cbn. now rewrite <- app_assoc.
Qed.

Lemma goodbye_is_never_shown_witness :
  Bubble.full_text (bubble (fst (handle_input (calm 0) (fresh " Quit ")))) = "".
Proof.
  exact (proj1 (proj2 (goodbye_is_never_shown (calm 0) (fresh " Quit ") eq_refl))).
Defined.

Lemma say_summary_text (e : Env) (st : State) (text : string) :
  say_summary e st text =
  match summary_text e with
  | Ok s => ret st s
  | Fail msg => raise st msg
  end.
Proof.
  unfold say_summary, summary_text, call.
  destruct (sensors_battery e); [|reflexivity].
  destruct (cpu_percent e); [|reflexivity].
  destruct (virtual_memory_percent e); reflexivity.
Qed.

(** X8. The hourly summary and the summary rule of [respond] build the same
    text from the same readings: on an input that reaches rule 7, [respond]
    returns exactly the message that [hourly_summary] puts in the bubble, and
    raises exactly when [hourly_summary] does, with the same exception. *)
Theorem hourly_summary_matches_summary_rule (e : Env) (d : Desktop) (text : string) :
  first_match 7 (conv d) text ->
  match out (respond e (conv d) text) with
  | Return s =>
      snd (hourly_summary e d) = None /\
      Bubble.full_text (bubble (fst (hourly_summary e d))) = s /\
      Avatar.current (avatar (fst (hourly_summary e d))) = Avatar.mouth_open /\
      conv (fst (hourly_summary e d)) = conv d
  | Raise msg => hourly_summary e d = (d, Some msg)
  end.
Proof.
  intros H. rewrite (respond_rule e (conv d) text 7 _ _ eq_refl H), say_summary_text.
  unfold hourly_summary. destruct (summary_text e); cbn; auto.
Qed.

Lemma hourly_summary_matches_witness :
  Bubble.full_text (bubble (fst (hourly_summary (calm 0) (fresh ""))))
  = match out (respond (calm 0) init "status report") with
    | Return s => s
    | Raise _ => ""
    end.
Proof.
  assert (H : first_match 7 init "status report") by first_match_by_eval 7.
  pose proof (hourly_summary_matches_summary_rule (calm 0) (fresh "") "status report" H) as P.
  change (conv (fresh "")) with init in P.
  destruct (out (respond (calm 0) init "status report")); [exact (proj1 (proj2 P))|].
  discriminate P.
Defined.

End Window.

(** ** What the keyword tests of [respond] amount to *)
Section Keywords.
Import PyStr Assistant Shell.

Lemma startswith_app_l (p q s : string) :
  startswith (p ++ q) s = true -> startswith p s = true.
Proof.
  unfold startswith. revert s. induction p as [|c p IH]; intros s H.
  - now destruct s.
  - destruct s as [|c' s]; cbn in *; [discriminate|].
    destruct (ascii_dec c c'); [now apply IH | discriminate].
Qed.

Lemma contains_tail (kw s : string) (c : ascii) :
  contains kw s = true -> contains kw (String c s) = true.
Proof. intros H. cbn [contains]. rewrite H. apply orb_true_r. Qed.

Lemma startswith_app_r (a q s : string) :
  startswith (a ++ q) s = true -> contains q s = true.
Proof.
  revert s. induction a as [|c a IH]; intros s H.
  - cbn in H. destruct s; cbn [contains]; now rewrite H.
  - unfold startswith in H. destruct s as [|c' s]; cbn in H; [discriminate|].
    destruct (ascii_dec c c'); [|discriminate].
    apply contains_tail, IH. exact H.
Qed.

Lemma contains_app_l (p q s : string) :
  contains (p ++ q) s = true -> contains p s = true.
Proof.
  induction s as [|c s IH]; cbn [contains]; intros H.
  - rewrite orb_false_r in *. now apply startswith_app_l in H as ->.
  - apply orb_true_iff in H as [H|H].
    + now apply startswith_app_l in H as ->.
    + rewrite (IH H). apply orb_true_r.
Qed.

(** A text that contains a phrase contains every piece of the phrase. *)
Lemma contains_piece (a piece b s : string) :
  contains (a ++ piece ++ b) s = true -> contains piece s = true.
Proof.
  induction s as [|c s IH]; cbn [contains]; intros H.
  - rewrite orb_false_r in H.
    apply startswith_app_r in H. now apply contains_app_l in H.
  - apply orb_true_iff in H as [H|H].
    + apply startswith_app_r in H. now apply contains_app_l in H.
    + fold (contains piece (String c s)). apply contains_tail, IH, H.
Qed.

(** X17. Three of the tests of [respond] have keywords that add nothing:
    the cleanup branch is taken exactly on the texts that contain "clean",
    the fact branch on those that contain "fact", the clipboard branch on
    those that contain "clipboard". *)
Theorem redundant_keywords (text : string) :
  (contains "run cleanup" text || contains "open cleanup" text || contains "clean" text
   = contains "clean" text) /\
  (contains "fun fact" text || contains "fact" text = contains "fact" text) /\
  (contains "clipboard" text || contains "read clipboard" text = contains "clipboard" text).
Proof.
  repeat split.
  - destruct (contains "clean" text) eqn:Hc; [apply orb_true_r|].
    destruct (contains "run cleanup" text) eqn:H1.
    { apply (contains_piece "run " "clean" "up") in H1. congruence. }
    destruct (contains "open cleanup" text) eqn:H2; [|reflexivity].
    apply (contains_piece "open " "clean" "up") in H2. congruence.
  - destruct (contains "fact" text) eqn:Hc; [apply orb_true_r|].
    destruct (contains "fun fact" text) eqn:H1; [|reflexivity].
    apply (contains_piece "fun " "fact" "") in H1. congruence.
  - destruct (contains "clipboard" text) eqn:Hc; [reflexivity|].
    destruct (contains "read clipboard" text) eqn:H1; [|reflexivity].
    apply (contains_piece "read " "clipboard" "") in H1. congruence.
Qed.

(** X9. When the fix branch answers (rule 4 is the first match), the tip is
    the one of the first key of the table found in the text, in the order
    slow, internet, crash, disk, and the general advice when none is found.
    The tip stored under "battery" is never given: a text that contains
    "battery" is taken by rule 2 before. *)
Theorem fix_tip_given (e : Env) (st : State) (text : string) :
  first_match 4 st text ->
  respond e st text =
    ret st (if contains "slow" text then tip "slow"
            else if contains "internet" text then tip "internet"
            else if contains "crash" text then tip "crash"
            else if contains "disk" text then tip "disk"
            else "Try restarting your computer or checking for updates.") /\
  out (respond e st text) <> Return (tip "battery").
Proof.
  intros H.
  assert (Hb : contains "battery" text = false).
  { destruct H as (_ & _ & Hearlier).
    specialize (Hearlier 2 _ _ ltac:(lia) eq_refl).
    cbv [contains_any existsb] in Hearlier. now rewrite orb_false_r in Hearlier. }
  rewrite (respond_rule e st text 4 _ _ eq_refl H).
  unfold say_fix, fix_tips. cbn [find fst]. rewrite Hb.
  destruct (contains "slow" text); [split; [reflexivity | discriminate]|].
  destruct (contains "internet" text); [split; [reflexivity | discriminate]|].
  destruct (contains "crash" text); [split; [reflexivity | discriminate]|].
  destruct (contains "disk" text); split; try reflexivity; discriminate.
Qed.

Lemma fix_tip_given_witness :
  respond (calm 0) init "my pc is slow and the internet has a problem"
  = ret init "Try restarting your PC and closing unused apps.".
Proof.
  refine (proj1 (fix_tip_given (calm 0) init
                   "my pc is slow and the internet has a problem" _)).
  first_match_by_eval 4.
Defined.

(** X16. No branch of [respond] is dead: for each of the 24 rules there is
    a state and an input on which it is the first rule to match. *)
Theorem every_rule_reachable (k : nat) :
  1 <= k <= 24 -> exists st text, first_match k st text.
Proof.
  intros Hk.
  assert (Hcases : k = 1 \/ k = 2 \/ k = 3 \/ k = 4 \/ k = 5 \/ k = 6 \/ k = 7 \/ k = 8 \/
                   k = 9 \/ k = 10 \/ k = 11 \/ k = 12 \/ k = 13 \/ k = 14 \/ k = 15 \/
                   k = 16 \/ k = 17 \/ k = 18 \/ k = 19 \/ k = 20 \/ k = 21 \/ k = 22 \/
                   k = 23 \/ k = 24) by lia.
  clear Hk.
  repeat destruct Hcases as [->|Hcases]; try subst k.
  - exists init, "time". first_match_by_eval 1.
  - exists init, "battery". first_match_by_eval 2.
  - exists init, "cpu". first_match_by_eval 3.
  - exists init, "crash". first_match_by_eval 4.
  - exists init, "clean". first_match_by_eval 5.
  - exists init, "fact". first_match_by_eval 6.
  - exists init, "summary". first_match_by_eval 7.
  - exists init, "open chrome". first_match_by_eval 8.
  - exists init, "clipboard". first_match_by_eval 9.
  - exists init, "bye". first_match_by_eval 10.
  - exists init, "play guess". first_match_by_eval 11.
  - exists (guessing 5), "guess 3". first_match_by_eval 12.
  - exists init, "play rps". first_match_by_eval 13.
  - exists playing_rps, "paper". first_match_by_eval 14.
  - exists init, "my name is bob". first_match_by_eval 15.
  - exists init, "my favorite color is red". first_match_by_eval 16.
  - exists init, "my birthday is may 5". first_match_by_eval 17.
  - exists init, "what do you know about me". first_match_by_eval 18.
  - exists init, "show recent". first_match_by_eval 19.
  - exists init, "wifi status". first_match_by_eval 20.
  - exists init, "hello". first_match_by_eval 21.
  - exists init, "mute sound". first_match_by_eval 22.
  - exists init, "unmute sound". first_match_by_eval 23.
  - exists init, "good morning". first_match_by_eval 24.
Qed.

Lemma every_rule_reachable_witness : exists st text, first_match 12 st text.
Proof. apply (every_rule_reachable 12). lia. Defined.

End Keywords.

(** ** The games across calls, and the actions of [respond] *)
Section Sessions.
Import PyStr Assistant Shell.

(** Reasoning on [respond] rule by rule: what holds of the handler of every
    rule whose predicate holds, and of the fallback, holds of [respond]. *)
Lemma dispatch_ind (Q : result -> Prop) (e : Env) (st : State) (text : string)
      (rs : list (predicate * handler)) :
  Forall (fun r => fst r st text = true -> Q (snd r e st text)) rs ->
  Q (fallback e st text) ->
  Q (dispatch rs e st text).
Proof.
  intros Hrs Hf. induction Hrs as [|[p h] rest Hh _ IH]; simpl in *; [exact Hf|].
  destruct (p st text); [now apply Hh | exact IH].
Qed.

Lemma randint_range (e : Env) : (1 <= randint e 1 10 <= 10)%Z.
Proof.
  unfold randint.
  assert (randbelow e 10 mod 10 < 10) by (apply Nat.mod_upper_bound; discriminate).
  lia.
Qed.

Lemma secret_in_range_respond (e : Env) (st : State) (text : string) :
  secret_in_range st -> secret_in_range (state (respond e st text)).
Proof.
  intros Hst. rewrite respond_is_dispatch.
  apply (dispatch_ind (fun r => secret_in_range (state r))); [|exact Hst].
  unfold rules.
  repeat (apply Forall_cons;
          [ cbn [fst snd]; intros _;
            first [ erewrite say_time_state | erewrite say_battery_state
                  | erewrite say_health_state | erewrite say_fix_state
                  | erewrite run_cleanup_state | erewrite say_fact_state
                  | erewrite say_summary_state | erewrite open_app_state
                  | erewrite read_clipboard_state | erewrite say_goodbye_state
                  | erewrite recall_state | erewrite recent_files_state
                  | erewrite wifi_info_state | erewrite say_hello_state
                  | erewrite mute_audio_state | erewrite unmute_audio_state
                  | erewrite fallback_state | idtac ]
          | ]); try exact Hst; try apply Forall_nil.
  - intros _. cbn. exists (randint e 1 10). split; [reflexivity | apply randint_range].
  - unfold take_guess.
    destruct (nth_error (split_ws text) 1) as [tok|]; [|exact Hst].
    destruct (int tok) as [g|]; [|exact Hst].
    destruct (secret_number st) as [s|]; [|exact Hst].
    destruct (g <? s)%Z; [exact Hst|].
    destruct (g >? s)%Z; [exact Hst|].
    intros H. discriminate H.
Qed.

(** X14. Through any series of inputs, from start-up on, a running guess
    game always has a secret, and the secret lies between 1 and 10. *)
Theorem guess_secret_always_in_range (calls : list (Env * string)) :
  secret_in_range (after calls init).
Proof.
  unfold after.
  assert (H0 : secret_in_range init) by (intros H; discriminate H).
  revert H0. generalize init. induction calls as [|[e text] calls IH]; intros st Hst.
  - exact Hst.
  - cbn [fold_left fst snd]. apply IH. now apply secret_in_range_respond.
Qed.

(** X15. A running guess game whose secret lies between 1 and 10 can be won
    at once: one of the ten inputs "guess 1" ... "guess 10" gets the success
    message and switches the game off, leaving secret, the other game and
    the profile as they were. *)
Theorem guess_game_winnable (e : Env) (st : State) :
  game_active st = true ->
  secret_in_range st ->
  exists g,
    In g guess_inputs /\
    respond e st g =
      ret {| game_active := false; secret_number := secret_number st;
             rps_active := rps_active st; user_profile := user_profile st |}
          "Correct! You guessed it!".
Proof.
  intros Ha Hr. destruct (Hr Ha) as (s & Hs & Hrange).
  destruct st as [ga sn ra pr]. cbn in Ha, Hs. subst ga sn. cbn [secret_number rps_active user_profile].
  assert (Hcases : (s = 1 \/ s = 2 \/ s = 3 \/ s = 4 \/ s = 5 \/ s = 6 \/ s = 7 \/ s = 8 \/
                    s = 9 \/ s = 10)%Z) by lia.
  clear Hr Hrange.
  repeat destruct Hcases as [->|Hcases]; try subst s;
    [ exists "guess 1" | exists "guess 2" | exists "guess 3" | exists "guess 4"
    | exists "guess 5" | exists "guess 6" | exists "guess 7" | exists "guess 8"
    | exists "guess 9" | exists "guess 10" ];
    (split; [cbn; tauto|]);
    (etransitivity;
     [ apply (respond_rule e _ _ 12 _ _ eq_refl); first_match_by_eval 12
     | reflexivity ]).
Qed.

Lemma guess_game_winnable_witness :
  exists g, In g guess_inputs /\
    respond (calm 0) (guessing 7) g =
      ret {| game_active := false; secret_number := Some 7%Z;
             rps_active := false; user_profile := user_profile init |}
          "Correct! You guessed it!".
Proof.
  refine (guess_game_winnable (calm 0) (guessing 7) eq_refl _).
  intros _. exists 7%Z. split; [reflexivity | lia].
Defined.

(** X19. The two games do not know of each other: starting or playing
    rock-paper-scissors leaves a running guess game and its secret as they
    are, and starting the guess game or guessing leaves rock-paper-scissors
    as it is; so both can be running at once.  None of them writes the
    profile. *)
Theorem games_are_independent (e : Env) (st : State) (text : string) :
  ((first_match 13 st text \/ first_match 14 st text) ->
     game_active (state (respond e st text)) = game_active st /\
     secret_number (state (respond e st text)) = secret_number st /\
     user_profile (state (respond e st text)) = user_profile st) /\
  ((first_match 11 st text \/ first_match 12 st text) ->
     rps_active (state (respond e st text)) = rps_active st /\
     user_profile (state (respond e st text)) = user_profile st) /\
  (first_match 13 st text -> game_active st = true ->
     game_active (state (respond e st text)) = true /\
     rps_active (state (respond e st text)) = true).
Proof.
  repeat split.
  1-3: destruct H as [H|H];
       [ rewrite (respond_rule e st text 13 _ _ eq_refl H)
       | rewrite (respond_rule e st text 14 _ _ eq_refl H) ]; reflexivity.
  1-2: destruct H as [H|H];
       [ rewrite (respond_rule e st text 11 _ _ eq_refl H); reflexivity
       | rewrite (respond_rule e st text 12 _ _ eq_refl H); unfold take_guess;
         repeat match goal with
                | |- context [match ?x with _ => _ end] => destruct x
                end; reflexivity ].
  - rewrite (respond_rule e st text 13 _ _ eq_refl H). exact H0.
  - rewrite (respond_rule e st text 13 _ _ eq_refl H). reflexivity.
Qed.

Lemma games_are_independent_witness :
  game_active (state (respond (calm 0) (guessing 4) "play rps")) = true /\
  rps_active (state (respond (calm 0) (guessing 4) "play rps")) = true.
Proof.
  refine (proj2 (proj2 (games_are_independent (calm 0) (guessing 4) "play rps")) _ eq_refl).
  first_match_by_eval 13.
Defined.

End Sessions.

Section Actions.
Import PyStr Assistant Shell.

Ltac belongs Hp :=
  eexists _, _, _; split; [reflexivity | split; [reflexivity | exact Hp]].

(** Every recorded action of [respond] comes from the branch it belongs to. *)
Lemma effects_belong (e : Env) (st : State) (text : string) (fx : effect) :
  In fx (effects (respond e st text)) ->
  exists k p h, effect_rule fx = Some k /\ rule k = Some (p, h) /\ p st text = true.
Proof.
  rewrite respond_is_dispatch. revert fx.
  apply (dispatch_ind
           (fun r => forall fx, In fx (effects r) ->
              exists k p h, effect_rule fx = Some k /\ rule k = Some (p, h) /\
                            p st text = true));
    [| intros fx []].
  unfold rules.
  repeat (apply Forall_cons;
          [ cbn [fst snd]; intros Hp fx;
            cbv [say_time say_battery say_health say_fix run_cleanup say_fact say_summary
                 open_app launch_app read_clipboard say_goodbye start_guess take_guess
                 start_rps play_rps set_name set_color set_birthday recall recent_files
                 wifi_info say_hello mute_audio unmute_audio call
                 lookup app_paths find option_map fst snd];
            repeat match goal with
                   | |- context [String.eqb ?a ?b] => destruct (String.eqb a b)
                   | |- context [match ?x with _ => _ end] => destruct x
                   end;
            cbn [effects ret ret_with raise In];
            intros Hin;
            repeat (destruct Hin as [<-|Hin]; [belongs Hp|]);
            destruct Hin
          | ]).
  apply Forall_nil.
Qed.

(** X11. The application is asked to quit exactly when the whole input is
    "exit", "quit", "close" or "bye"; the response is then the empty string
    and the conversation state is kept. *)
Theorem quits_only_on_exact_words (e : Env) (st : State) (text : string) :
  (In (QuitAfter 2000) (effects (respond e st text)) <->
   one_of ["exit"; "quit"; "close"; "bye"] text = true) /\
  (one_of ["exit"; "quit"; "close"; "bye"] text = true ->
   out (respond e st text) = Return "" /\ state (respond e st text) = st).
Proof.
  split; [split|].
  - intros Hin. destruct (effects_belong e st text _ Hin) as (k & p & h & Hk & Hr & Hp).
    cbn in Hk. injection Hk as <-.
    cbv [rule rules nth_error Nat.sub] in Hr. injection Hr as <- <-. exact Hp.
  - intros H. rewrite (goodbye_rule e st text H). cbn. tauto.
  - intros H. rewrite (goodbye_rule e st text H). now split.
Qed.

Lemma quits_only_on_exact_words_witness :
  out (respond (calm 0) init "close") = Return "" /\
  state (respond (calm 0) init "close") = init.
Proof. exact (proj2 (quits_only_on_exact_words (calm 0) init "close") eq_refl). Defined.

End Actions.

(** ** Recent files, Wi-Fi and clipboard *)
Section Reports.
Import PyStr Assistant Shell.

Lemma insert_desc_perm (x : string * Z) (l : list (string * Z)) :
  Permutation (x :: l) (insert_desc x l).
Proof.
  induction l as [|y r IH]; cbn; [reflexivity|].
  destruct (snd x <? snd y)%Z; [|reflexivity].
  rewrite perm_swap. now apply perm_skip.
Qed.

Lemma sort_desc_perm (l : list (string * Z)) : Permutation l (sort_desc l).
Proof.
  induction l as [|x l IH]; cbn; [reflexivity|].
  rewrite <- insert_desc_perm. now apply perm_skip.
Qed.

Lemma insert_desc_sorted (x : string * Z) (l : list (string * Z)) :
  StronglySorted later l -> StronglySorted later (insert_desc x l).
Proof.
  induction 1 as [|y r Hr IH Hy]; cbn.
  - repeat constructor.
  - destruct (Z.ltb_spec (snd x) (snd y)).
    + constructor; [exact IH|].
      apply (Permutation_Forall (insert_desc_perm x r)).
      constructor; [unfold later; lia | exact Hy].
    + constructor; [now constructor|].
      constructor; [exact H|].
      eapply Forall_impl; [|exact Hy]. unfold later. intros z Hz. lia.
Qed.

Lemma sort_desc_sorted (l : list (string * Z)) : StronglySorted later (sort_desc l).
Proof.
  induction l as [|x l IH]; cbn; [constructor | now apply insert_desc_sorted].
Qed.

Lemma sorted_app_inv (a b : list (string * Z)) :
  StronglySorted later (a ++ b)%list ->
  StronglySorted later a /\ forall x y, In x a -> In y b -> later x y.
Proof.
  induction a as [|z a IH]; cbn; intros H.
  - split; [constructor | intros x y []].
  - inversion H as [|? ? Hs Hz]; subst. destruct (IH Hs) as [IHs IHab].
    apply Forall_app in Hz as [Hza Hzb]. split; [now constructor|].
    intros x y [<-|Hx] Hy; [| now apply IHab].
    rewrite Forall_forall in Hzb. now apply Hzb.
Qed.

(** X12. The recent-files branch reports the files most recently modified:
    the files whose time could be read split into the reported ones, at
    most three and in order of decreasing time, and the others, none of
    which is more recent than a reported one; with fewer than three such
    files all are reported, and with none the answer is that no recent file
    was found. *)
Theorem recent_files_reports_the_latest (e : Env) (st : State) (text : string) :
  documents_exists e = true ->
  exists top rest,
    Permutation (with_mtime (documents_walk e)) (top ++ rest)%list /\
    List.length top = Nat.min 3 (List.length (with_mtime (documents_walk e))) /\
    StronglySorted later top /\
    (forall x y, In x top -> In y rest -> later x y) /\
    recent_files e st text =
      match top with
      | [] => ret st "No recent files found."
      | _ =>
          match format_files e top with
          | Ok formatted =>
              ret st ("Here are your 3 most recent files in Documents:" ++ nl ++
                      join_lines formatted)
          | Fail msg => raise st msg
          end
      end.
Proof.
  intros Hex.
  set (files := with_mtime (documents_walk e)).
  exists (firstn 3 (sort_desc files)), (skipn 3 (sort_desc files)).
  pose proof (sort_desc_sorted files) as Hs.
  rewrite <- (firstn_skipn 3 (sort_desc files)) in Hs.
  apply sorted_app_inv in Hs as [Hs1 Hs2].
  repeat split.
  - rewrite firstn_skipn. apply sort_desc_perm.
  - rewrite length_firstn. f_equal. symmetry. apply Permutation_length, sort_desc_perm.
  - exact Hs1.
  - exact Hs2.
  - unfold recent_files, call. rewrite Hex. cbn [negb]. fold files.
    destruct (firstn 3 (sort_desc files)); reflexivity.
Qed.

Lemma recent_files_reports_witness :
  exists top rest,
    Permutation (with_mtime (documents_walk (calm 0))) (top ++ rest)%list /\
    List.length top = Nat.min 3 (List.length (with_mtime (documents_walk (calm 0)))) /\
    StronglySorted later top /\
    (forall x y, In x top -> In y rest -> later x y) /\
    recent_files (calm 0) init "recent files" =
      match top with
      | [] => ret init "No recent files found."
      | _ =>
          match format_files (calm 0) top with
          | Ok formatted =>
              ret init ("Here are your 3 most recent files in Documents:" ++ nl ++
                        join_lines formatted)
          | Fail msg => raise init msg
          end
      end.
Proof. exact (recent_files_reports_the_latest (calm 0) init "recent files" eq_refl). Defined.

Lemma wifi_line_fails (w : wlan) (line : string) :
  field_line line = true -> after_colon (strip line) = None -> wifi_line w line = None.
Proof.
  unfold field_line, wifi_line. intros Hf Hc. rewrite Hc. cbn [option_map].
  destruct (startswith "SSID" (strip line)); [reflexivity|].
  destruct (startswith "Signal" (strip line)); [reflexivity|].
  destruct (startswith "State" (strip line)); [reflexivity | discriminate].
Qed.

Lemma wifi_lines_fail (lines : list string) (line : string) :
  In line lines -> field_line line = true -> after_colon (strip line) = None ->
  forall w, wifi_lines w lines = None.
Proof.
  intros Hin Hf Hc. induction lines as [|l lines IH]; [destruct Hin|].
  intros w. cbn [wifi_lines]. destruct Hin as [->|Hin].
  - now rewrite (wifi_line_fails w line Hf Hc).
  - destruct (wifi_line w l); [now apply IH | reflexivity].
Qed.

(** X13. One field line without a colon spoils the whole Wi-Fi answer: if
    any line of the netsh output starts (after stripping) with "SSID",
    "Signal" or "State" and has no colon, the answer is the apology, whatever
    the other lines say. *)
Theorem wifi_malformed_line_apologises (e : Env) (st : State) (text output line : string) :
  netsh_wlan e = Ok output ->
  In line (splitlines output) ->
  field_line line = true ->
  after_colon (strip line) = None ->
  wifi_info e st text = ret st "Sorry, I couldn't get the Wi-Fi information.".
Proof.
  intros Hn Hin Hf Hc. unfold wifi_info. rewrite Hn.
  now rewrite (wifi_lines_fail _ line Hin Hf Hc).
Qed.

Lemma wifi_malformed_line_witness :
  wifi_info (netsh_says ("State : connected" ++ nl ++ "  SSID home" ++ nl ++ "Signal : 80%"))
            init "wifi info"
  = ret init "Sorry, I couldn't get the Wi-Fi information.".
Proof.
  refine (wifi_malformed_line_apologises
            (netsh_says ("State : connected" ++ nl ++ "  SSID home" ++ nl ++ "Signal : 80%"))
            init "wifi info"
            ("State : connected" ++ nl ++ "  SSID home" ++ nl ++ "Signal : 80%")
            "  SSID home" eq_refl _ eq_refl eq_refl).
  vm_compute. tauto.
Defined.

Lemma take_length (n : nat) (s : string) :
  String.length (take n s) = Nat.min n (String.length s).
Proof.
  revert s. induction n as [|n IH]; intros [|c s]; cbn; try reflexivity.
  now rewrite IH.
Qed.

Lemma take_prefix (n : nat) (s : string) : startswith (take n s) s = true.
Proof.
  unfold startswith. revert s. induction n as [|n IH]; intros [|c s]; cbn; try reflexivity.
  destruct (ascii_dec c c); [apply IH | congruence].
Qed.

(** X18. The clipboard branch shows a prefix of the clipboard text of at
    most 300 characters (the whole text when it is shorter), and says that
    the clipboard is empty exactly when its text is empty. *)
Theorem clipboard_shows_at_most_300 (e : Env) (st : State) (text : string) :
  exists shown,
    startswith shown (clipboard_text e) = true /\
    String.length shown = Nat.min 300 (String.length (clipboard_text e)) /\
    read_clipboard e st text =
      ret st (if String.eqb (clipboard_text e) ""
              then "Clipboard is empty or not text."
              else "Clipboard says:" ++ nl ++ shown).
Proof.
  exists (take 300 (clipboard_text e)). split; [apply take_prefix|].
  split; [apply take_length|].
  unfold read_clipboard. destruct (clipboard_text e); reflexivity.
Qed.

End Reports.

(** ** Where an exception of [respond] can come from *)
Section Exceptions.
Import PyStr Assistant Shell.

Lemma format_files_fail (e : Env) (l : list (string * Z)) (msg : string) :
  format_files e l = Fail msg ->
  exists f t, In (f, t) l /\ format_mtime e t = Fail msg.
Proof.
  induction l as [|[f t] r IH]; cbn; [discriminate|].
  destruct (format_mtime e t) as [d|m] eqn:Hd.
  - destruct (format_files e r) as [ls|m]; [discriminate|].
    intros [= <-]. destruct (IH eq_refl) as (f' & t' & Hin & Hf).
    exists f', t'. split; [now right | exact Hf].
  - intros [= <-]. exists f, t. split; [now left | exact Hd].
Qed.

Lemma firstn_In (A : Type) (n : nat) (l : list A) (x : A) : In x (firstn n l) -> In x l.
Proof.
  intros H. rewrite <- (firstn_skipn n l). apply in_or_app. now left.
Qed.

(** X20. An exception that leaves [respond] is always the exception of one
    of the four calls made outside a [try]: the battery query, the CPU
    query, the memory query, or the formatting of the time of a file of the
    Documents folder.  Whatever else fails, the other branches return. *)
Theorem respond_raises_only_from_unguarded_calls
        (e : Env) (st : State) (text msg : string) :
  out (respond e st text) = Raise msg ->
  sensors_battery e = Fail msg \/
  cpu_percent e = Fail msg \/
  virtual_memory_percent e = Fail msg \/
  exists f t, In (f, t) (with_mtime (documents_walk e)) /\ format_mtime e t = Fail msg.
Proof.
  rewrite respond_is_dispatch.
  apply (dispatch_ind
           (fun r => out r = Raise msg ->
              sensors_battery e = Fail msg \/ cpu_percent e = Fail msg \/
              virtual_memory_percent e = Fail msg \/
              exists f t, In (f, t) (with_mtime (documents_walk e)) /\
                          format_mtime e t = Fail msg));
    [| discriminate].
  unfold rules.
  repeat (apply Forall_cons;
          [ cbn [fst snd]; intros _;
            try (cbv [say_time say_fix run_cleanup say_fact open_app launch_app
                      read_clipboard say_goodbye start_guess take_guess start_rps
                      play_rps set_name set_color set_birthday recall wifi_info
                      say_hello mute_audio unmute_audio];
                 repeat match goal with
                        | |- context [match ?x with _ => _ end] => destruct x
                        end;
                 discriminate)
          | ]); try apply Forall_nil.
  - unfold say_battery, call.
    destruct (sensors_battery e) as [[b|]|m]; cbn; try discriminate.
    intros [= ->]. now left.
  - unfold say_health, call.
    destruct (cpu_percent e) as [c|m]; cbn; [|intros [= ->]; tauto].
    destruct (virtual_memory_percent e) as [v|m]; cbn; [discriminate|].
    intros [= ->]. tauto.
  - unfold say_summary, call.
    destruct (sensors_battery e) as [b|m]; cbn; [|intros [= ->]; tauto].
    destruct (cpu_percent e) as [c|m]; cbn; [|intros [= ->]; tauto].
    destruct (virtual_memory_percent e) as [v|m]; cbn; [discriminate|].
    intros [= ->]. tauto.
  - unfold recent_files, call.
    destruct (negb (documents_exists e)); [discriminate|].
    destruct (firstn 3 (sort_desc (with_mtime (documents_walk e)))) as [|x top] eqn:Htop;
      [discriminate|].
    destruct (format_files e (x :: top)) as [ls|m] eqn:Hf; cbn; [discriminate|].
    intros [= ->]. right. right. right.
    destruct (format_files_fail e _ _ Hf) as (f & t & Hin & Hfail).
    exists f, t. split; [| exact Hfail].
    rewrite <- Htop in Hin. apply firstn_In in Hin.
    apply (Permutation_in _ (Permutation_sym (sort_desc_perm _)) Hin).
Qed.

Lemma respond_raises_witness :
  sensors_battery battery_query_raises = Fail "battery sensor unavailable" \/
  cpu_percent battery_query_raises = Fail "battery sensor unavailable" \/
  virtual_memory_percent battery_query_raises = Fail "battery sensor unavailable" \/
  exists f t, In (f, t) (with_mtime (documents_walk battery_query_raises)) /\
              format_mtime battery_query_raises t = Fail "battery sensor unavailable".
Proof.
  exact (respond_raises_only_from_unguarded_calls
           battery_query_raises init "summary" "battery sensor unavailable" eq_refl).
Defined.

End Exceptions.

(** ** What [handle_input] does to the window *)
Section WindowAfterInput.
Import PyStr Assistant Shell.

Lemma perform_external (fxs : list effect) (d : Desktop) :
  Forall external fxs ->
  fold_left perform fxs d =
  {| conv := conv d; avatar := avatar d; bubble := bubble d;
     input_line := input_line d; quit_shots := quit_shots d;
     outside := (outside d ++ fxs)%list |}.
Proof.
  intros H. revert d. induction H as [|fx fxs Hfx _ IH]; intros d.
  - cbn. rewrite app_nil_r. now destruct d.
  - cbn [fold_left]. rewrite IH.
    destruct fx; try destruct Hfx; cbn; now rewrite <- app_assoc.
Qed.

Lemma effects_external (e : Env) (st : State) (text : string) :
  one_of ["exit"; "quit"; "close"; "bye"] text = false ->
  Forall external (effects (respond e st text)).
Proof.
  intros Hno. apply Forall_forall. intros fx Hin.
  destruct (effects_belong e st text fx Hin) as (k & p & h & Hk & Hr & Hp).
  destruct fx as [cmd|path|m| |message|ms]; cbn; try exact I; exfalso; cbn in Hk.
  - injection Hk as <-. cbv [rule rules nth_error Nat.sub] in Hr.
    injection Hr as <- <-. unfold is_exactly in Hp. congruence.
  - destruct (String.eqb message "Goodbye! Shutting down..."); [|discriminate].
    injection Hk as <-. cbv [rule rules nth_error Nat.sub] in Hr.
    injection Hr as <- <-. unfold is_exactly in Hp. congruence.
  - destruct (Nat.eqb ms 2000); [|discriminate].
    injection Hk as <-. cbv [rule rules nth_error Nat.sub] in Hr.
    injection Hr as <- <-. unfold is_exactly in Hp. congruence.
Qed.

(** X21. On an input line that is not blank and not one of the four exit
    words, when [respond] returns, [handle_input] leaves the window thus:
    the conversation state is the one [respond] left, the avatar was told to
    talk once, the bubble starts revealing exactly the response (interval 30
    ms, any reveal in progress dropped), the input line is cleared, no quit
    is scheduled, and the actions on the system are those of [respond].
    When [respond] raises, nothing is shown and the line is kept. *)
Theorem handle_input_shows_response (e : Env) (d : Desktop) :
  let text := lower (strip (input_line d)) in
  let r := respond e (conv d) text in
  text <> "" ->
  one_of ["exit"; "quit"; "close"; "bye"] text = false ->
  handle_input e d =
    match out r with
    | Return response =>
        ({| conv := state r;
            avatar := Avatar.talk (avatar d);
            bubble := Bubble.show_animated_text response 30 (bubble d);
            input_line := "";
            quit_shots := quit_shots d;
            outside := (outside d ++ effects r)%list |}, None)
    | Raise msg =>
        ({| conv := state r; avatar := avatar d; bubble := bubble d;
            input_line := input_line d; quit_shots := quit_shots d;
            outside := (outside d ++ effects r)%list |}, Some msg)
    end.
Proof.
  intros text r Hne Hno. unfold handle_input. cbv zeta.
  change (lower (strip (input_line d))) with text.
  change (respond e (conv d) text) with r.
  assert (Hm : forall (A : Type) (a b : A),
             match text with EmptyString => a | String _ _ => b end = b)
    by (intros; destruct text; [congruence | reflexivity]).
  rewrite Hm.
  rewrite (perform_external _ _ (effects_external e (conv d) text Hno)).
  destruct (out r); reflexivity.
Qed.

Lemma handle_input_shows_response_witness :
  handle_input (calm 0) (fresh "  Hello ") =
    ({| conv := init;
        avatar := Avatar.talk Avatar.init;
        bubble := Bubble.show_animated_text "Hello." 30 Bubble.init;
        input_line := "";
        quit_shots := [];
        outside := [] |}, None).
Proof.
  refine (handle_input_shows_response (calm 0) (fresh "  Hello ") _ eq_refl).
  discriminate.
Defined.

End WindowAfterInput.
